(** * Heat-Pump-Efficacy-Dashboard: the dashboard pipeline, embedded and verified

    A shallow embedding of [app.py] (the Shiny dashboard) and of
    [process-data.py] (the catalog preprocessing script).

    Conventions of the embedding:
    - a floating-point number is the rational it stands for ([Q]); a
      missing value (NaN) is [None] in a series and [NaN] in a quotient.
      The proportions of the summary table are computed in binary64, with
      the rounding of each operation ([b64]); the rolling averages are
      exact, and equalities between them are stated with [Qeq] ([==]);
    - Python exceptions are the [Raise] branch of [outcome], carrying the
      name of the exception class;
    - objects that the Python code shares by reference (the data frame
      cached by [filter_df]) live in an explicit heap. *)

From Stdlib Require Import ZArith QArith Qround Qabs Qpower List Ascii String Lia Lqa.
From stdpp Require Import base option list strings pretty.

Set Default Proof Using "Type".
Local Open Scope Z_scope.

(** ** Exceptions *)

Inductive outcome (A : Type) : Type :=
| Ok (a : A)
| Raise (exn : string).
Arguments Ok {A} a.
Arguments Raise {A} exn.

Definition obind {A B} (m : outcome A) (k : A -> outcome B) : outcome B :=
  match m with
  | Ok a => k a
  | Raise e => Raise e
  end.

(** ** Numbers *)

Module Num.

(** A series value: [None] is NaN, the archive's marker of a missing day. *)
Definition cell : Type := option Q.

(** The result of a float division: it can also be an infinity. *)
Inductive float : Type :=
| NaN
| Inf (negative : bool)
| Fin (q : Q).

(** [x < t] on a series value and an integer; NaN compares false. *)
Definition cell_ltb (x : cell) (t : Z) : bool :=
  match x with
  | Some q => if Qlt_le_dec q (inject_Z t) then true else false
  | None => false
  end.

(** [x >= t]; NaN compares false. *)
Definition cell_geb (x : cell) (t : Z) : bool :=
  match x with
  | Some q => if Qlt_le_dec q (inject_Z t) then false else true
  | None => false
  end.

(** [rint]: round to the nearest integer, ties to the even one. *)
Definition rint (q : Q) : Z :=
  let f := Qfloor q in
  match ((q - inject_Z f) ?= (1 # 2))%Q with
  | Lt => f
  | Gt => f + 1
  | Eq => if Z.even f then f else f + 1
  end.

(** Python's [round(q, ndigits)] on a float: the decimal rounding of the
    exact value of the float, ties to even. *)
Definition round_ndigits (q : Q) (ndigits : nat) : Q :=
  let scale := inject_Z (10 ^ Z.of_nat ndigits) in
  (inject_Z (rint (q * scale)) / scale)%Q.

(** *** Binary64

    The double nearest to a rational, ties to even: a significand of 53
    bits times a power of two.  Exponents are not bounded: overflow and
    subnormal numbers, which quotients of counts and their thousandfold
    never reach, are left out. *)

(** The exponent [e] of the last place of [q > 0]: the one for which
    [2^52 <= q / 2^e < 2^53].  The bit lengths of numerator and
    denominator give it up to one. *)
Definition b64_exponent (q : Q) : Z :=
  let e0 := Z.log2 (Qnum q) - Z.log2 (Z.pos (Qden q)) - 53 in
  if Qlt_le_dec (q / Qpower 2 e0) (inject_Z (2 ^ 53)) then e0 else e0 + 1.

Definition b64_pos (q : Q) : Q :=
  let e := b64_exponent q in
  (inject_Z (rint (q / Qpower 2 e)) * Qpower 2 e)%Q.

Definition b64 (q : Q) : Q :=
  Qred (match (q ?= 0)%Q with
        | Eq => 0
        | Gt => b64_pos q
        | Lt => - b64_pos (- q)
        end)%Q.

(** numpy's [round(x, decimals)] on a double, for [decimals >= 0]:
    multiply by the power of ten, round to the nearest integer, divide by
    the power of ten, each operation in binary64. *)
Definition np_round (x : Q) (decimals : nat) : Q :=
  let scale := inject_Z (10 ^ Z.of_nat decimals) in
  b64 (inject_Z (rint (b64 (x * scale))) / scale)%Q.

(** [Series.round(ndigits)] *)
Definition float_round (x : float) (ndigits : nat) : float :=
  match x with
  | Fin q => Fin (np_round q ndigits)
  | other => other
  end.

(** pandas' true division of an integer column by an integer, in
    binary64: division by zero raises nothing, it yields NaN for 0/0 and
    an infinity otherwise. *)
Definition truediv (n d : Z) : float :=
  if d =? 0 then
    if n =? 0 then NaN else Inf (n <? 0)
  else Fin (b64 (inject_Z n / inject_Z d))%Q.

End Num.

(** ** The parts of pandas and numpy the program uses *)

Module Pandas.
Import Num.

Inductive column : Type :=
| DateCol (v : list Z)      (* timestamps, seconds since the epoch *)
| NumCol (v : list cell).   (* floats *)

Definition column_len (c : column) : nat :=
  match c with
  | DateCol v => length v
  | NumCol v => length v
  end.

(** A data frame: its number of rows (the index) and its columns in
    order of insertion. *)
Record DataFrame : Type := {
  nrows : nat;
  cols : list (string * column)
}.

Fixpoint get_col (name : string) (cs : list (string * column)) : option column :=
  match cs with
  | [] => None
  | (n, c) :: rest => if String.eqb n name then Some c else get_col name rest
  end.

(** Assignment of one column: an existing column is replaced where it
    stands, a new one is appended. *)
Fixpoint set_col (name : string) (c : column) (cs : list (string * column))
  : list (string * column) :=
  match cs with
  | [] => [(name, c)]
  | (n, c0) :: rest =>
      if String.eqb n name then (name, c) :: rest
      else (n, c0) :: set_col name c rest
  end.

(** [df[name]] *)
Definition getitem (df : DataFrame) (name : string) : outcome column :=
  match get_col name (cols df) with
  | Some c => Ok c
  | None => Raise "KeyError"
  end.

(** [df[name] = c], for a column computed from [df] itself. *)
Definition setitem (df : DataFrame) (name : string) (c : column) : DataFrame :=
  {| nrows := nrows df; cols := set_col name c (cols df) |}.

(** [pd.DataFrame(data = {n1: c1, n2: c2})] *)
Definition frame_of_dict (n1 : string) (c1 : column) (n2 : string) (c2 : column)
  : outcome DataFrame :=
  if Nat.eqb (column_len c1) (column_len c2) then
    Ok {| nrows := column_len c1; cols := set_col n2 c2 [(n1, c1)] |}
  else Raise "ValueError".

(** [pd.date_range(start, end, freq, inclusive = "left")]: of the
    instants [start + k * freq] up to [end], pandas drops [end] itself
    unless it is also [start]; so [start] alone when [start = end], and
    otherwise the instants that lie before [end]. *)
Definition date_range_left (start stop : Z) (freq : positive) : list Z :=
  if start =? stop then [start]
  else map (fun k => start + Z.of_nat k * Z.pos freq)
           (seq 0 (Z.to_nat ((stop - start + Z.pos freq - 1) / Z.pos freq))).

(** [np.arange(start, stop, -1)] on integers. *)
Definition arange_down (start stop : Z) : list Z :=
  map (fun k => start - Z.of_nat k) (seq 0 (Z.to_nat (start - stop))).

(** [len(df[df[col] < t])] for a float column. *)
Definition count_lt (v : list cell) (t : Z) : Z :=
  Z.of_nat (length (List.filter (fun x => cell_ltb x t) v)).

(** *** Rolling mean

    [Series.rolling(window = w).mean()] with the default
    [min_periods = w]: pandas slides a window ending at each index and
    keeps the number of valid observations and their sum, adding the
    entering value and removing the leaving one.  The guards of the
    original against floating-point cancellation (compensated summation,
    the count of negative values, runs of equal values) are the identity
    on exact rationals and are left out. *)

Record roll_state : Type := { nobs : Z; sum_x : Q }.

Definition add_mean (val : cell) (st : roll_state) : roll_state :=
  match val with
  | Some v => {| nobs := nobs st + 1; sum_x := (sum_x st + v)%Q |}
  | None => st
  end.

Definition remove_mean (val : cell) (st : roll_state) : roll_state :=
  match val with
  | Some v => {| nobs := nobs st - 1; sum_x := (sum_x st - v)%Q |}
  | None => st
  end.

Definition calc_mean (minp : Z) (st : roll_state) : cell :=
  if (minp <=? nobs st) && (0 <? nobs st)
  then Some (sum_x st / inject_Z (nobs st))%Q
  else None.

(** The loop over the indices [i, i+1, ...] of [rest], the part of
    [values] still to visit; [st] is the state of the window that ends
    just before [i]. *)
Fixpoint roll_mean_loop (win : nat) (values : list cell) (i : nat)
         (rest : list cell) (st : roll_state) : list cell :=
  match rest with
  | [] => []
  | x :: rest' =>
      let st1 :=
        if (win <=? i)%nat then
          match values !! (i - win)%nat with
          | Some old => remove_mean old st
          | None => st
          end
        else st in
      let st2 := add_mean x st1 in
      calc_mean (Z.of_nat win) st2 :: roll_mean_loop win values (S i) rest' st2
  end.

Definition rolling_mean (win : nat) (values : list cell) : list cell :=
  roll_mean_loop win values 0 values {| nobs := 0; sum_x := 0 |}.

End Pandas.

(** ** The derived series as the specification words it *)

Module SeriesSpec.
Import Num.

Fixpoint total (l : list cell) : cell :=
  match l with
  | [] => Some 0%Q
  | x :: r =>
      match x, total r with
      | Some v, Some s => Some (v + s)%Q
      | _, _ => None
      end
  end.

(** Arithmetic mean of a list of floats; a NaN among them makes it NaN. *)
Definition mean (l : list cell) : cell :=
  match total l with
  | Some s => Some (s / inject_Z (Z.of_nat (length l)))%Q
  | None => None
  end.

(** The [w] values at indices [i - (w - 1)] through [i]. *)
Definition window (w : nat) (values : list cell) (i : nat) : list cell :=
  take w (drop (i + 1 - w) values).

(** Absent for the first [w - 1] indices, then the mean of the window. *)
Definition trailing_avg (w : nat) (values : list cell) (i : nat) : cell :=
  if (i <? w - 1)%nat then None else mean (window w values i).

(** Equality of floats up to the representation of the rational. *)
Definition cell_eq (a b : cell) : Prop :=
  match a, b with
  | Some x, Some y => (x == y)%Q
  | None, None => True
  | _, _ => False
  end.

End SeriesSpec.

(** ** The city catalog, [data/cities.csv] *)

Module Catalog.

Record CityRow : Type := {
  city_state : string;
  lat : Q;
  lng : Q
}.

(** A catalog table: the names of its columns and its rows. *)
Record Table : Type := {
  columns : list string;
  rows : list CityRow
}.

End Catalog.

(** ** process-data.py *)

Module ProcessData.
Import Catalog.

(** The columns of [data-raw/uscities.csv] that the script reads. *)
Record RawRow : Type := {
  city : string;
  state_name : string;
  population : Z;
  raw_lat : Q;
  raw_lng : Q
}.

(** [df = df[df["population"] >= 10000]] *)
Definition populous (r : RawRow) : bool := 10000 <=? population r.

(** [df["city_state"] = df["city"] + ', ' + df["state_name"]] *)
Definition label (r : RawRow) : string :=
  (city r ++ ", " ++ state_name r)%string.

(** [df = df[["city_state", "lat", "lng"]]] *)
Definition select (r : RawRow) : CityRow :=
  {| city_state := label r; lat := raw_lat r; lng := raw_lng r |}.

(** The frame that the script hands to [to_csv]. *)
Definition process (raw : list RawRow) : Table :=
  {| columns := ["city_state"; "lat"; "lng"]%string;
     rows := map select (List.filter populous raw) |}.

Section Csv.
(** The decimal text pandas writes for a float. *)
Variable float_str : Q -> string.

Definition quote : Ascii.ascii := Ascii.ascii_of_nat 34.

Fixpoint needs_quoting (s : string) : bool :=
  match s with
  | EmptyString => false
  | String c r =>
      Ascii.eqb c ","%char || Ascii.eqb c quote
      || Ascii.eqb c (Ascii.ascii_of_nat 10) || Ascii.eqb c (Ascii.ascii_of_nat 13)
      || needs_quoting r
  end.

Fixpoint double_quotes (s : string) : string :=
  match s with
  | EmptyString => EmptyString
  | String c r =>
      if Ascii.eqb c quote then String quote (String quote (double_quotes r))
      else String c (double_quotes r)
  end.

(** A text field under the writer's minimal quoting. *)
Definition csv_field (s : string) : string :=
  if needs_quoting s
  then String quote (double_quotes s ++ String quote EmptyString)
  else s.

Definition csv_row (r : CityRow) : string :=
  String.concat "," [csv_field (city_state r); float_str (lat r); float_str (lng r)].

(** [df.to_csv(path, index=False)]: the lines of the file, header first. *)
Definition to_csv (t : Table) : list string :=
  String.concat "," (map csv_field (columns t)) :: map csv_row (rows t).

(** The lines of [data/cities.csv] after the script ran on [raw]. *)
Definition catalog_file (raw : list RawRow) : list string :=
  to_csv (process raw).

End Csv.

End ProcessData.

(** ** app.py *)

Module App.
Import Num Pandas Catalog.

(** *** Data *)

(** A calendar date, as its day number. *)
Definition date : Type := Z.

Record Slider (V : Type) : Type := {
  value : V;
  smin : Z;
  smax : Z
}.
Arguments value {V} _.
Arguments smin {V} _.
Arguments smax {V} _.

(** The widgets of the sidebar; [input.plotTemp()] and
    [input.tableTemp()] are the [value]s of the two sliders. *)
Record Inputs : Type := {
  city : string;
  daterange : date * date;
  tempunits : string;
  plotTemp : Slider Z;
  plotOptions : list string;
  tableTemp : Slider (Z * Z)
}.

Inductive InputId : Type :=
| IdCity | IdDaterange | IdTempunits | IdPlotTemp | IdPlotOptions | IdTableTemp.

#[global] Instance InputId_eq_dec : EqDecision InputId.
Proof. solve_decision. Defined.

(** The request sent to the archive. *)
Record Params : Type := {
  latitude : Q;
  longitude : Q;
  start_date : date;
  end_date : date;
  daily : string;
  temperature_unit : string
}.

(** [response.Daily()] *)
Record DailyBlock : Type := {
  Time : Z;
  TimeEnd : Z;
  Interval : positive;
  ValuesAsNumpy : list cell
}.

Record Response : Type := {
  Latitude : Q;
  Longitude : Q;
  Daily : DailyBlock
}.

(** *** Module level *)

(** [df[df["city_state"] == label][field].tolist()[0]] *)
Definition lookup_first (field : CityRow -> Q) (label : string) (df : list CityRow)
  : outcome Q :=
  match List.filter (fun r => String.eqb (city_state r) label) df with
  | r :: _ => Ok (field r)
  | [] => Raise "IndexError"
  end.

(** [Series.unique()]: the distinct values in order of first appearance. *)
Fixpoint unique_from (seen l : list string) : list string :=
  match l with
  | [] => []
  | x :: rest =>
      if existsb (String.eqb x) seen then unique_from seen rest
      else x :: unique_from (x :: seen) rest
  end.

Record Globals : Type := {
  g_df : list CityRow;
  g_cities : list string;
  g_lat : Q
}.

(** What importing the module binds, given the table read from
    [data/cities.csv]. *)
Definition load_module (df : list CityRow) : outcome Globals :=
  let cities := unique_from [] (map city_state df) in
  obind (lookup_first lat "Urbana, Illinois" df) (fun lat0 =>
  Ok {| g_df := df; g_cities := cities; g_lat := lat0 |}).

(** *** Reactive reads

    A reactive function runs against the current inputs; the framework
    records which inputs it reads.  [R] returns, with the result, the
    trace of those reads and of the requests sent to the archive. *)

Inductive event : Type :=
| Read (k : InputId)
| Fetch (p : Params).

Definition R (A : Type) : Type := Inputs -> list event * outcome A.

Definition ret {A} (a : A) : R A := fun _ => ([], Ok a).

Definition lift {A} (o : outcome A) : R A := fun _ => ([], o).

Definition rbind {A B} (m : R A) (k : A -> R B) : R B :=
  fun inp =>
    match m inp with
    | (tr, Ok a) => let '(tr', b) := k a inp in (tr ++ tr', b)
    | (tr, Raise e) => (tr, Raise e)
    end.

Notation "'let*' x ':=' m 'in' k" := (rbind m (fun x => k))
  (at level 10, x name, m at level 100, k at level 200).

Definition input_city : R string := fun inp => ([Read IdCity], Ok (city inp)).
Definition input_daterange : R (date * date) :=
  fun inp => ([Read IdDaterange], Ok (daterange inp)).
Definition input_tempunits : R string :=
  fun inp => ([Read IdTempunits], Ok (tempunits inp)).

(** [req(x)]: a silent exception stops the computation on an empty value. *)
Definition req (s : string) : R unit :=
  if String.eqb s "" then lift (Raise "SilentException") else ret tt.

(** [xs[0]] *)
Definition item0 {A} (xs : list A) : outcome A :=
  match xs with
  | x :: _ => Ok x
  | [] => Raise "IndexError"
  end.

Definition reads (tr : list event) : list InputId :=
  flat_map (fun e => match e with Read k => [k] | Fetch _ => [] end) tr.

Definition requests (tr : list event) : list Params :=
  flat_map (fun e => match e with Read _ => [] | Fetch p => [p] end) tr.

Section Server.
(** The archive behind [openmeteo.weather_api(url, params)], with its
    cache and retries: what a request is answered with. *)
Variable weather_api : Params -> outcome (list Response).
(** The text of a float in an f-string. *)
Variable float_str : Q -> string.
(** The module-level catalog [df]. *)
Variable df : list CityRow.

Definition call_weather_api (p : Params) : R (list Response) :=
  fun _ => ([Fetch p], weather_api p).

(** The body of [apiresponse]. *)
Definition apiresponse_body : R Response :=
  let* d0 := input_daterange in
  let start := fst d0 in
  let* d1 := input_daterange in
  let stop := snd d1 in
  let* c0 := input_city in
  let* _ := req c0 in
  let* c1 := input_city in
  let* lat0 := lift (lookup_first lat c1 df) in
  let* c2 := input_city in
  let* long0 := lift (lookup_first lng c2 df) in
  let* temp_units := input_tempunits in
  let params :=
    {| latitude := lat0;
       longitude := long0;
       start_date := start;
       end_date := stop;
       daily := "temperature_2m_min";
       temperature_unit := temp_units |} in
  let* responses := call_weather_api params in
  lift (item0 responses).

(** The body of [filter_df], on the response it got. *)
Definition filter_df_body (response : Response) : outcome DataFrame :=
  let hourly := Daily response in
  frame_of_dict
    "date" (DateCol (date_range_left (Time hourly) (TimeEnd hourly) (Interval hourly)))
    "temperature_2m_min" (NumCol (ValuesAsNumpy hourly)).

(** The body of [text]. *)
Definition text_body (response : Response) : string :=
  (float_str (round_ndigits (Latitude response) 4) ++ "°N, "
   ++ float_str (round_ndigits (Longitude response) 4) ++ "°E")%string.

Record MapWidget : Type := {
  center : Q * Q;
  zoom : Z;
  markers : list (Q * Q)
}.

(** The body of [map]. *)
Definition map_body (response : Response) : MapWidget :=
  let lat0 := Latitude response in
  let long0 := Longitude response in
  {| center := (lat0, long0); zoom := 12; markers := [(lat0, long0)] |}.

(** *** The summary table *)

(** A float column of a frame; comparing or averaging the date
    column is a type error. *)
Definition num_col (frame : DataFrame) (name : string) : outcome (list cell) :=
  obind (getitem frame name) (fun c =>
    match c with
    | NumCol v => Ok v
    | DateCol _ => Raise "TypeError"
    end).

(** The frame shown by [hist_table], column by column. *)
Record TableFrame : Type := {
  Temp : list Z;
  Days_Below : list Z;
  Proportion_Below : list float
}.

(** The [for i in vallist] loop that fills [tmp]. *)
Fixpoint days_below_loop (histdf : DataFrame) (vallist : list Z) : outcome (list Z) :=
  match vallist with
  | [] => Ok []
  | i :: rest =>
      obind (num_col histdf "temperature_2m_min") (fun v =>
      obind (days_below_loop histdf rest) (fun tmp =>
      Ok (count_lt v i :: tmp)))
  end.

(** The body of [hist_table] once [filter_df()] gave [histdf];
    [range] is [input.tableTemp()]. *)
Definition hist_table_body (histdf : DataFrame) (range : Z * Z) : outcome TableFrame :=
  let vallist := arange_down (snd range) (fst range - 1) in
  obind (days_below_loop histdf vallist) (fun tmp =>
  Ok {| Temp := vallist;
        Days_Below := tmp;
        Proportion_Below :=
          map (fun d => float_round (truediv d (Z.of_nat (nrows histdf))) 3) tmp |}).

(** One row of the table. *)
Record ThresholdRow : Type := {
  temperature : Z;
  days_below : Z;
  proportion_below : float
}.

Fixpoint zip_rows (ts ds : list Z) (ps : list float) : list ThresholdRow :=
  match ts, ds, ps with
  | t :: ts', d :: ds', p :: ps' =>
      {| temperature := t; days_below := d; proportion_below := p |}
      :: zip_rows ts' ds' ps'
  | _, _, _ => []
  end.

Definition table_rows (t : TableFrame) : list ThresholdRow :=
  zip_rows (Temp t) (Days_Below t) (Proportion_Below t).

(** *** The plot *)

(** Python objects shared by reference: a location is an index in the
    heap. *)
Definition loc : Type := nat.
Definition Heap : Type := list DataFrame.

Record Figure : Type := {
  hline : Z;
  upper : list (Z * cell);
  lower : list (Z * cell);
  weekly_line : option (list Z * list cell);
  monthly_line : option (list Z * list cell);
  ylabel : string
}.

(** [df[name] = df["temperature_2m_min"].rolling(window = win).mean()]
    on the frame at [l]; the frame is updated where it lives. *)
Definition assign_rolling (name : string) (win : nat) (l : loc) (h : Heap)
  : outcome Heap :=
  match h !! l with
  | None => Raise "ReferenceError"
  | Some frame =>
      obind (num_col frame "temperature_2m_min") (fun temps =>
      Ok (<[l := setitem frame name (NumCol (rolling_mean win temps))]> h))
  end.

Definition date_col (frame : DataFrame) : outcome (list Z) :=
  obind (getitem frame "date") (fun c =>
    match c with
    | DateCol v => Ok v
    | NumCol _ => Raise "TypeError"
    end).

(** The rows of the frame kept by a boolean mask on the temperature,
    as (date, temperature) points. *)
Definition points (keep : cell -> bool) (dates : list Z) (temps : list cell)
  : list (Z * cell) :=
  List.filter (fun p => keep (snd p)) (combine dates temps).

(** What is drawn, from the frame after the two assignments. *)
Definition draw (inp : Inputs) (frame : DataFrame) : outcome Figure :=
  let threshold := value (plotTemp inp) in
  obind (date_col frame) (fun dates =>
  obind (num_col frame "temperature_2m_min") (fun temps =>
  obind (if existsb (String.eqb "weekly") (plotOptions inp)
         then obind (num_col frame "weekrollingavg") (fun w => Ok (Some (dates, w)))
         else Ok None) (fun weekly =>
  obind (if existsb (String.eqb "monthly") (plotOptions inp)
         then obind (num_col frame "monthrollingavg") (fun m => Ok (Some (dates, m)))
         else Ok None) (fun monthly =>
  Ok {| hline := threshold;
        upper := points (fun x => cell_geb x threshold) dates temps;
        lower := points (fun x => cell_ltb x threshold) dates temps;
        weekly_line := weekly;
        monthly_line := monthly;
        ylabel := if String.eqb (tempunits inp) "fahrenheit"
                  then "Daily Minimum Temperature °F"
                  else "Daily Minimum Temperature °C" |})))).

(** The body of [plot] once [filter_df()] gave the reference [l]. *)
Definition plot_body (inp : Inputs) (l : loc) (h : Heap) : outcome Figure * Heap :=
  match assign_rolling "weekrollingavg" 7 l h with
  | Raise e => (Raise e, h)
  | Ok h1 =>
      match assign_rolling "monthrollingavg" 30 l h1 with
      | Raise e => (Raise e, h1)
      | Ok h2 =>
          match h2 !! l with
          | None => (Raise "ReferenceError", h2)
          | Some frame => (draw inp frame, h2)
          end
      end
  end.

(** *** The slider effect *)

Inductive SliderMsg : Type :=
| UpdatePlotTemp (v lo hi : Z)
| UpdateTableTemp (v : Z * Z) (lo hi : Z).

(** The body of [updateslider]: the two [ui.update_slider] calls. *)
Definition updateslider_body : R (list SliderMsg) :=
  let* u1 := input_tempunits in
  let* u2 := input_tempunits in
  let* u3 := input_tempunits in
  let* u4 := input_tempunits in
  let* u5 := input_tempunits in
  let* u6 := input_tempunits in
  ret [ UpdatePlotTemp (if String.eqb u1 "fahrenheit" then 5 else -15)
                       (if String.eqb u2 "fahrenheit" then -15 else -25)
                       (if String.eqb u3 "fahrenheit" then 50 else 10);
        UpdateTableTemp (if String.eqb u4 "fahrenheit" then (0, 15) else (-20, -10))
                        (if String.eqb u5 "fahrenheit" then -25 else -30)
                        (if String.eqb u6 "fahrenheit" then 60 else 15) ].

(** *** The session: reactive values, cached calcs, shared objects *)

Record Session : Type := {
  inputs : Inputs;
  (** [apiresponse]: the inputs its last run read, and its value *)
  api_cache : option (list InputId * outcome Response);
  (** [filter_df]: a reference to the frame it built *)
  df_cache : option (outcome loc);
  heap : Heap;
  (** the requests sent to the archive so far *)
  fetches : list Params;
  (** the inputs the last run of [updateslider] read *)
  effect_deps : list InputId
}.

Definition with_inputs (inp : Inputs) (s : Session) : Session :=
  {| inputs := inp; api_cache := api_cache s; df_cache := df_cache s;
     heap := heap s; fetches := fetches s; effect_deps := effect_deps s |}.

Definition with_heap (h : Heap) (s : Session) : Session :=
  {| inputs := inputs s; api_cache := api_cache s; df_cache := df_cache s;
     heap := h; fetches := fetches s; effect_deps := effect_deps s |}.

(** [apiresponse()]: a cached calc runs its body only when it holds no
    value; a run records what it read and what it requested. *)
Definition apiresponse (s : Session) : outcome Response * Session :=
  match api_cache s with
  | Some (_, v) => (v, s)
  | None =>
      let '(tr, v) := apiresponse_body (inputs s) in
      (v, {| inputs := inputs s; api_cache := Some (reads tr, v);
             df_cache := df_cache s; heap := heap s;
             fetches := fetches s ++ requests tr;
             effect_deps := effect_deps s |})
  end.

(** [filter_df()]: the frame is built once and every caller gets the
    same reference. *)
Definition filter_df (s : Session) : outcome loc * Session :=
  match df_cache s with
  | Some v => (v, s)
  | None =>
      let '(r, s1) := apiresponse s in
      match obind r filter_df_body with
      | Ok frame =>
          let l := length (heap s1) in
          (Ok l, {| inputs := inputs s1; api_cache := api_cache s1;
                    df_cache := Some (Ok l); heap := heap s1 ++ [frame];
                    fetches := fetches s1; effect_deps := effect_deps s1 |})
      | Raise e =>
          (Raise e, {| inputs := inputs s1; api_cache := api_cache s1;
                       df_cache := Some (Raise e); heap := heap s1;
                       fetches := fetches s1; effect_deps := effect_deps s1 |})
      end
  end.

Definition text (s : Session) : outcome string * Session :=
  let '(r, s1) := apiresponse s in
  (obind r (fun response => Ok (text_body response)), s1).

Definition map_widget (s : Session) : outcome MapWidget * Session :=
  let '(r, s1) := apiresponse s in
  (obind r (fun response => Ok (map_body response)), s1).

Definition hist_table (s : Session) : outcome TableFrame * Session :=
  let '(r, s1) := filter_df s in
  match r with
  | Raise e => (Raise e, s1)
  | Ok l =>
      match heap s1 !! l with
      | None => (Raise "ReferenceError", s1)
      | Some histdf => (hist_table_body histdf (value (tableTemp (inputs s1))), s1)
      end
  end.

Definition plot (s : Session) : outcome Figure * Session :=
  let '(r, s1) := filter_df s in
  match r with
  | Raise e => (Raise e, s1)
  | Ok l =>
      let '(fig, h) := plot_body (inputs s1) l (heap s1) in
      (fig, with_heap h s1)
  end.

(** A new value for one input. *)
Inductive change : Type :=
| SetCity (c : string)
| SetDaterange (d : date * date)
| SetTempunits (u : string)
| SetPlotTemp (v : Z)
| SetPlotOptions (o : list string)
| SetTableTemp (v : Z * Z).

Definition changed_id (c : change) : InputId :=
  match c with
  | SetCity _ => IdCity
  | SetDaterange _ => IdDaterange
  | SetTempunits _ => IdTempunits
  | SetPlotTemp _ => IdPlotTemp
  | SetPlotOptions _ => IdPlotOptions
  | SetTableTemp _ => IdTableTemp
  end.

Definition apply_change (c : change) (i : Inputs) : Inputs :=
  match c with
  | SetCity x =>
      {| city := x; daterange := daterange i; tempunits := tempunits i;
         plotTemp := plotTemp i; plotOptions := plotOptions i; tableTemp := tableTemp i |}
  | SetDaterange x =>
      {| city := city i; daterange := x; tempunits := tempunits i;
         plotTemp := plotTemp i; plotOptions := plotOptions i; tableTemp := tableTemp i |}
  | SetTempunits x =>
      {| city := city i; daterange := daterange i; tempunits := x;
         plotTemp := plotTemp i; plotOptions := plotOptions i; tableTemp := tableTemp i |}
  | SetPlotTemp x =>
      {| city := city i; daterange := daterange i; tempunits := tempunits i;
         plotTemp := {| value := x; smin := smin (plotTemp i); smax := smax (plotTemp i) |};
         plotOptions := plotOptions i; tableTemp := tableTemp i |}
  | SetPlotOptions x =>
      {| city := city i; daterange := daterange i; tempunits := tempunits i;
         plotTemp := plotTemp i; plotOptions := x; tableTemp := tableTemp i |}
  | SetTableTemp x =>
      {| city := city i; daterange := daterange i; tempunits := tempunits i;
         plotTemp := plotTemp i; plotOptions := plotOptions i;
         tableTemp := {| value := x; smin := smin (tableTemp i); smax := smax (tableTemp i) |} |}
  end.

(** Setting an input to the value it has invalidates nothing. *)
Definition same_value (c : change) (i : Inputs) : bool :=
  match c with
  | SetCity x => bool_decide (x = city i)
  | SetDaterange x => bool_decide (x = daterange i)
  | SetTempunits x => bool_decide (x = tempunits i)
  | SetPlotTemp x => bool_decide (x = value (plotTemp i))
  | SetPlotOptions x => bool_decide (x = plotOptions i)
  | SetTableTemp x => bool_decide (x = value (tableTemp i))
  end.

(** Input [k] changed: a calc that read it loses its value, and so
    does [filter_df], which is computed from [apiresponse]. *)
Definition invalidate (k : InputId) (s : Session) : Session :=
  match api_cache s with
  | Some (deps, _) =>
      if bool_decide (k ∈ deps) then
        {| inputs := inputs s; api_cache := None; df_cache := None;
           heap := heap s; fetches := fetches s; effect_deps := effect_deps s |}
      else s
  | None => s
  end.

Definition set_input (c : change) (s : Session) : Session :=
  if same_value c (inputs s) then s
  else invalidate (changed_id c) (with_inputs (apply_change c (inputs s)) s).

(** [ui.update_slider]: the slider takes the value and the bounds sent.
    The message goes to the browser, which sets the slider and reports
    its value back; the session is taken up again here once that is
    done, nothing being rendered in between. *)
Definition apply_msg (s : Session) (m : SliderMsg) : Session :=
  match m with
  | UpdatePlotTemp v lo hi =>
      let s1 := set_input (SetPlotTemp v) s in
      let i := inputs s1 in
      with_inputs
        {| city := city i; daterange := daterange i; tempunits := tempunits i;
           plotTemp := {| value := v; smin := lo; smax := hi |};
           plotOptions := plotOptions i; tableTemp := tableTemp i |} s1
  | UpdateTableTemp v lo hi =>
      let s1 := set_input (SetTableTemp v) s in
      let i := inputs s1 in
      with_inputs
        {| city := city i; daterange := daterange i; tempunits := tempunits i;
           plotTemp := plotTemp i; plotOptions := plotOptions i;
           tableTemp := {| value := v; smin := lo; smax := hi |} |} s1
  end.

(** One run of the effect [updateslider]. *)
Definition run_effect (s : Session) : Session :=
  let '(tr, r) := updateslider_body (inputs s) in
  let s1 := {| inputs := inputs s; api_cache := api_cache s; df_cache := df_cache s;
               heap := heap s; fetches := fetches s; effect_deps := reads tr |} in
  match r with
  | Ok msgs => fold_left apply_msg msgs s1
  | Raise _ => s1
  end.

(** The user changes an input; the effect reruns when it had read it. *)
Definition on_change (c : change) (s : Session) : Session :=
  let s1 := set_input c s in
  if negb (same_value c (inputs s)) && bool_decide (changed_id c ∈ effect_deps s)
  then run_effect s1 else s1.

(** A session starts with nothing computed; effects run once. *)
Definition start (i : Inputs) : Session :=
  run_effect {| inputs := i; api_cache := None; df_cache := None;
                heap := []; fetches := []; effect_deps := [] |}.

Inductive action : Type :=
| Change (c : change)
| RenderText
| RenderMap
| RenderTable
| RenderPlot.

Definition perform (a : action) (s : Session) : Session :=
  match a with
  | Change c => on_change c s
  | RenderText => snd (text s)
  | RenderMap => snd (map_widget s)
  | RenderTable => snd (hist_table s)
  | RenderPlot => snd (plot s)
  end.

(** The sessions the program can be in. *)
Inductive reachable (i0 : Inputs) : Session -> Prop :=
| reach_start : reachable i0 (start i0)
| reach_step s a : reachable i0 s -> reachable i0 (perform a s).

End Server.

End App.

(** ** What the state of the rolling window stands for *)

Module RollInv.
Import Num Pandas.

Definition is_valid (x : cell) : bool :=
  match x with Some _ => true | None => false end.

(** The number of values of [l] that are not NaN. *)
Definition valid_count (l : list cell) : Z :=
  Z.of_nat (length (List.filter is_valid l)).

(** Their sum. *)
Fixpoint valid_sum (l : list cell) : Q :=
  match l with
  | [] => 0%Q
  | Some v :: r => (v + valid_sum r)%Q
  | None :: r => valid_sum r
  end.

(** [st] is the state of a window that holds exactly [l]. *)
Definition tracks (st : roll_state) (l : list cell) : Prop :=
  nobs st = valid_count l /\ (sum_x st == valid_sum l)%Q.

(** The last [w] elements of what has been visited. *)
Definition seen (w : nat) (pre : list cell) : list cell :=
  drop (length pre - w) pre.

End RollInv.

(** ** The rows of the summary table, one by one *)

Module TableView.
Import Num Pandas App.

(** The row for threshold [t] over the temperatures [temps] of a frame
    of [n] rows. *)
Definition row_at (temps : list cell) (n : nat) (t : Z) : ThresholdRow :=
  {| temperature := t;
     days_below := count_lt temps t;
     proportion_below := float_round (truediv (count_lt temps t) (Z.of_nat n)) 3 |}.

(** [x < t], as a proposition. *)
Definition strictly_below (x : cell) (t : Z) : Prop :=
  exists q, x = Some q /\ (q < inject_Z t)%Q.

End TableView.

(** ** Sample data *)

Module Demo.
Import Num Pandas Catalog App.

Definition raw : list ProcessData.RawRow :=
  [ {| ProcessData.city := "Urbana"; ProcessData.state_name := "Illinois";
       ProcessData.population := 38336;
       ProcessData.raw_lat := 401106 # 10000; ProcessData.raw_lng := - 882073 # 10000 |};
    {| ProcessData.city := "Sidney"; ProcessData.state_name := "Illinois";
       ProcessData.population := 1208;
       ProcessData.raw_lat := 400250 # 10000; ProcessData.raw_lng := - 880734 # 10000 |};
    {| ProcessData.city := "Chicago"; ProcessData.state_name := "Illinois";
       ProcessData.population := 2746388;
       ProcessData.raw_lat := 418375 # 10000; ProcessData.raw_lng := - 876866 # 10000 |} ].

Definition df : list CityRow := rows (ProcessData.process raw).

(** A catalog without Urbana. *)
Definition df_no_urbana : list CityRow :=
  [ {| city_state := "Chicago, Illinois"; lat := 418375 # 10000; lng := - 876866 # 10000 |} ].

(** A float with four decimals. *)
Definition pad4 (m : Z) : string :=
  match pretty (10000 + m) with
  | String _ r => r
  | EmptyString => EmptyString
  end.

Definition float_str (q : Q) : string :=
  let n := Qfloor (Qabs q * 10000) in
  ((if Qlt_le_dec q 0 then "-" else "")
   ++ pretty (n / 10000) ++ "." ++ pad4 (n mod 10000))%string.

Definition temps8 : list cell :=
  [Some 1; Some 2; Some 3; Some 4; Some 5; Some 6; Some 7; Some 8]%Q.

(** An archive that answers every request with eight days, at the grid
    point it resolved the coordinate to. *)
Definition response8 : Response :=
  {| Latitude := 40105446 # 1000000;
     Longitude := - 88209030 # 1000000;
     Daily := {| Time := 1640995200;
                 TimeEnd := 1640995200 + 8 * 86400;
                 Interval := 86400;
                 ValuesAsNumpy := temps8 |} |}.

Definition weather_api (p : Params) : outcome (list Response) := Ok [response8].

(** An archive that has no day to report: its range ends before it
    starts. *)
Definition response0 : Response :=
  {| Latitude := 40105446 # 1000000;
     Longitude := - 88209030 # 1000000;
     Daily := {| Time := 1640995200;
                 TimeEnd := 1640995200 - 86400;
                 Interval := 86400;
                 ValuesAsNumpy := [] |} |}.

Definition weather_api_empty (p : Params) : outcome (list Response) := Ok [response0].

(** A response whose range starts and ends at the same instant, and
    which carries no value. *)
Definition response_instant : Response :=
  {| Latitude := 40105446 # 1000000;
     Longitude := - 88209030 # 1000000;
     Daily := {| Time := 1640995200;
                 TimeEnd := 1640995200;
                 Interval := 86400;
                 ValuesAsNumpy := [] |} |}.

Definition inputs0 : Inputs :=
  {| city := "Urbana, Illinois";
     daterange := (738156, 738886);
     tempunits := "fahrenheit";
     plotTemp := {| value := 5; smin := -15; smax := 50 |};
     plotOptions := [];
     tableTemp := {| value := (0, 15); smin := -25; smax := 60 |} |}.

Definition frame8 : DataFrame :=
  {| nrows := 8;
     cols := [ ("date"%string,
                DateCol (date_range_left 1640995200 (1640995200 + 8 * 86400) 86400));
               ("temperature_2m_min"%string, NumCol temps8) ] |}.

Definition frame0 : DataFrame :=
  {| nrows := 0;
     cols := [ ("date"%string, DateCol []);
               ("temperature_2m_min"%string, NumCol []) ] |}.

(** The session once the table was shown. *)
Definition session_with_table : Session :=
  perform weather_api float_str df RenderTable (start inputs0).

End Demo.

(** ** What holds of every session the program reaches *)

Module SessionInv.
Import App.

(** The inputs a run of [apiresponse] may read. *)
Definition fetch_input (k : InputId) : Prop :=
  k = IdDaterange \/ k = IdCity \/ k = IdTempunits.

(** [apiresponse] holds a value only with fetch inputs as its recorded
    reads, and [updateslider] last read the unit input and nothing else. *)
Definition session_ok (s : Session) : Prop :=
  (forall deps v, api_cache s = Some (deps, v) -> Forall fetch_input deps)
  /\ effect_deps s = replicate 6 IdTempunits.

(** Two input states that [apiresponse] cannot tell apart. *)
Definition same_fetch_inputs (i1 i2 : Inputs) : Prop :=
  city i1 = city i2 /\ daterange i1 = daterange i2 /\ tempunits i1 = tempunits i2.

(** A reactive computation that reads only inputs satisfying [P]. *)
Definition only_reads (P : InputId -> Prop) {A} (m : R A) : Prop :=
  forall inp, Forall P (reads (fst (m inp))).

(** A reactive computation whose trace and result are the same on
    input states with the same fetch inputs. *)
Definition fetch_determined {A} (m : R A) : Prop :=
  forall i1 i2, same_fetch_inputs i1 i2 -> m i1 = m i2.

Definition is_render (a : action) : Prop :=
  match a with
  | Change _ => False
  | _ => True
  end.

End SessionInv.

(** ** Cached values against values computed afresh *)

Module Coherence.
Import Num Pandas App.

(** Input [k] has the same value in two input states. *)
Definition input_eq (k : InputId) (i1 i2 : Inputs) : Prop :=
  match k with
  | IdCity => city i1 = city i2
  | IdDaterange => daterange i1 = daterange i2
  | IdTempunits => tempunits i1 = tempunits i2
  | IdPlotTemp => value (plotTemp i1) = value (plotTemp i2)
  | IdPlotOptions => plotOptions i1 = plotOptions i2
  | IdTableTemp => value (tableTemp i1) = value (tableTemp i2)
  end.

(** A reactive computation whose run is decided by the inputs it reads. *)
Definition tracked {A} (m : R A) : Prop :=
  forall i1 i2,
    (forall k, In k (reads (fst (m i1))) -> input_eq k i1 i2) -> m i2 = m i1.

(** A frame with the rows, dates and temperatures of another. *)
Definition same_data (frame frame0 : DataFrame) : Prop :=
  nrows frame = nrows frame0
  /\ getitem frame "date" = getitem frame0 "date"
  /\ getitem frame "temperature_2m_min" = getitem frame0 "temperature_2m_min".

Section Server.
Variable weather_api : Params -> outcome (list Response).
Variable df : list Catalog.CityRow.

(** What the pipeline yields when run from scratch on the inputs [i]. *)
Definition fresh_response (i : Inputs) : outcome Response :=
  snd (apiresponse_body weather_api df i).

Definition fresh_frame (i : Inputs) : outcome DataFrame :=
  obind (fresh_response i) filter_df_body.

Definition fresh_table (i : Inputs) : outcome TableFrame :=
  obind (fresh_frame i) (fun frame => hist_table_body frame (value (tableTemp i))).

(** Each cached calc holds what a run on the current inputs would give:
    [apiresponse] the reads and the result of such a run, [filter_df] a
    reference to a frame with the data of the frame such a run builds. *)
Definition coherent (s : Session) : Prop :=
  (forall deps v,
      api_cache s = Some (deps, v) ->
      deps = reads (fst (apiresponse_body weather_api df (inputs s)))
      /\ v = fresh_response (inputs s))
  /\ (forall v,
         df_cache s = Some v ->
         is_Some (api_cache s)
         /\ match v with
            | Raise e => fresh_frame (inputs s) = Raise e
            | Ok l =>
                exists frame0 frame,
                  fresh_frame (inputs s) = Ok frame0
                  /\ heap s !! l = Some frame
                  /\ same_data frame frame0
            end).

End Server.

End Coherence.

(** ** Well-formed frames *)

Module FrameShape.
Import Pandas.

(** Every column has one entry per row. *)
Definition rectangular (frame : DataFrame) : Prop :=
  Forall (fun nc => column_len (snd nc) = nrows frame) (cols frame).

End FrameShape.

(** ** Bounds of binary64 arithmetic *)

Module FloatBounds.

(** The unit roundoff, [2^-53]. *)
Definition u64 : Q := 1 # 9007199254740992.

(** A bound, [2^-41], on what dividing and multiplying by 1000 in
    binary64 can move a thousandfold proportion by. *)
Definition eps : Q := 1 # 2199023255552.

End FloatBounds.

(** * Verification *)

Module RollingFacts.
Import Num Pandas SeriesSpec RollInv.

Lemma valid_count_app l1 l2 :
  valid_count (l1 ++ l2) = valid_count l1 + valid_count l2.
Proof.
  unfold valid_count. rewrite List.filter_app, length_app. lia.
Qed.

Lemma valid_sum_app l1 l2 :
  (valid_sum (l1 ++ l2) == valid_sum l1 + valid_sum l2)%Q.
Proof.
  induction l1 as [|[v|] l1 IH]; simpl.
  - ring.
  - rewrite IH. ring.
  - exact IH.
Qed.

Lemma valid_count_bounds l : 0 <= valid_count l <= Z.of_nat (length l).
Proof.
  unfold valid_count. pose proof (List.filter_length_le is_valid l). lia.
Qed.

Lemma add_mean_tracks st l x :
  tracks st l -> tracks (add_mean x st) (l ++ [x]).
Proof.
  intros [Hn Hs]. unfold tracks.
  rewrite valid_count_app, valid_sum_app.
  destruct x as [v|]; simpl.
  - split; [unfold valid_count in *; simpl; lia | rewrite Hs; ring].
  - split; [unfold valid_count in *; simpl; lia | rewrite Hs; ring].
Qed.

Lemma remove_mean_tracks st l x :
  tracks st (x :: l) -> tracks (remove_mean x st) l.
Proof.
  intros [Hn Hs]. unfold tracks.
  destruct x as [v|]; simpl in *.
  - split; [unfold valid_count in *; simpl in *; lia | rewrite Hs; ring].
  - split; [unfold valid_count in *; simpl in *; lia | exact Hs].
Qed.

(** A list without NaN has a total, the sum of its values. *)
Lemma total_all_valid l :
  valid_count l = Z.of_nat (length l) -> total l = Some (valid_sum l).
Proof.
  induction l as [|[v|] l IH]; simpl; intros H.
  - reflexivity.
  - rewrite IH; [reflexivity|]. unfold valid_count in *. simpl in H. lia.
  - exfalso. pose proof (valid_count_bounds l).
    unfold valid_count in *. simpl in H. lia.
Qed.

Lemma total_some_valid l s :
  total l = Some s -> valid_count l = Z.of_nat (length l).
Proof.
  revert s. induction l as [|[v|] l IH]; simpl; intros s H.
  - reflexivity.
  - destruct (total l) as [s'|] eqn:E; [|discriminate].
    specialize (IH s' eq_refl). unfold valid_count in *. simpl. lia.
  - discriminate.
Qed.

(** The value pandas emits for a window that holds [l]. *)
Lemma calc_mean_tracks (w : nat) st l :
  (0 < w)%nat -> (length l <= w)%nat -> tracks st l ->
  cell_eq (calc_mean (Z.of_nat w) st)
          (if (length l <? w)%nat then None else mean l).
Proof.
  intros Hw Hlen [Hn Hs]. unfold calc_mean, mean.
  pose proof (valid_count_bounds l) as Hb.
  destruct (length l <? w)%nat eqn:Hlt.
  - apply Nat.ltb_lt in Hlt.
    replace (Z.of_nat w <=? nobs st) with false by (symmetry; apply Z.leb_gt; lia).
    simpl. exact I.
  - apply Nat.ltb_ge in Hlt. assert (length l = w) as Hl by lia.
    destruct (Z.of_nat w <=? nobs st) eqn:Hge.
    + apply Z.leb_le in Hge.
      replace (0 <? nobs st) with true by (symmetry; apply Z.ltb_lt; lia).
      simpl. rewrite total_all_valid by lia. simpl.
      rewrite Hs. replace (nobs st) with (Z.of_nat (length l)) by lia. reflexivity.
    + apply Z.leb_gt in Hge. simpl.
      destruct (total l) as [s|] eqn:Ht; [|exact I].
      apply total_some_valid in Ht. lia.
Qed.

Lemma seen_length w pre : length (seen w pre) = Nat.min w (length pre).
Proof. unfold seen. rewrite length_drop. lia. Qed.

(** Sliding the window by one: the oldest value leaves when the window
    is full, the new one enters. *)
Lemma seen_snoc w pre x :
  (0 < w)%nat ->
  seen w (pre ++ [x]) = drop (length pre + 1 - w) pre ++ [x].
Proof.
  intros Hw. unfold seen. rewrite length_app. simpl.
  rewrite drop_app_le by lia. reflexivity.
Qed.

Lemma seen_full w pre old :
  (w <= length pre)%nat -> pre !! (length pre - w)%nat = Some old ->
  seen w pre = old :: drop (length pre + 1 - w) pre.
Proof.
  intros Hw Hold. unfold seen.
  rewrite (drop_S _ _ _ Hold).
  replace (S (length pre - w)) with (length pre + 1 - w)%nat by lia.
  reflexivity.
Qed.

Lemma seen_window w pre x rest :
  (w <= length pre + 1)%nat ->
  seen w (pre ++ [x]) = window w (pre ++ x :: rest) (length pre).
Proof.
  intros Hw. unfold seen, window.
  rewrite take_drop_commute.
  replace (length pre + 1 - w + w)%nat with (length (pre ++ [x]))
    by (rewrite length_app; simpl; lia).
  rewrite (cons_middle x pre rest), app_assoc, take_app_length.
  rewrite length_app. reflexivity.
Qed.

(** The loop, started anywhere with a state that stands for the window
    seen so far, emits the trailing averages of the remaining indices. *)
Lemma roll_mean_loop_spec (w : nat) (values : list cell) :
  (0 < w)%nat ->
  forall rest pre st,
    values = pre ++ rest ->
    tracks st (seen w pre) ->
    Forall2 cell_eq
      (roll_mean_loop w values (length pre) rest st)
      (map (trailing_avg w values) (seq (length pre) (length rest))).
Proof.
  intros Hw. induction rest as [|x rest IH]; intros pre st Hv Hst; simpl.
  - constructor.
  - set (st1 := if (w <=? length pre)%nat then _ else st).
    assert (tracks st1 (drop (length pre + 1 - w) pre)) as Hst1.
    { subst st1. destruct (w <=? length pre)%nat eqn:Hfull.
      - apply Nat.leb_le in Hfull.
        assert (is_Some (pre !! (length pre - w)%nat)) as [old Hold]
          by (apply lookup_lt_is_Some; lia).
        rewrite Hv, lookup_app_l by lia. rewrite Hold.
        apply remove_mean_tracks. rewrite <- seen_full by assumption. exact Hst.
      - apply Nat.leb_gt in Hfull.
        replace (length pre + 1 - w)%nat with (length pre - w)%nat by lia.
        exact Hst. }
    assert (tracks (add_mean x st1) (seen w (pre ++ [x]))) as Hst2.
    { rewrite seen_snoc by assumption. apply add_mean_tracks, Hst1. }
    constructor.
    + assert (length (seen w (pre ++ [x])) <= w)%nat as Hle
        by (rewrite seen_length; lia).
      pose proof (calc_mean_tracks w _ _ Hw Hle Hst2) as Hc.
      rewrite seen_length, length_app in Hc. simpl in Hc.
      unfold trailing_avg.
      destruct (length pre <? w - 1)%nat eqn:Hearly.
      * apply Nat.ltb_lt in Hearly.
        replace (Nat.min w (length pre + 1) <? w)%nat with true in Hc
          by (symmetry; apply Nat.ltb_lt; lia).
        exact Hc.
      * apply Nat.ltb_ge in Hearly.
        replace (Nat.min w (length pre + 1) <? w)%nat with false in Hc
          by (symmetry; apply Nat.ltb_ge; lia).
        rewrite Hv, <- seen_window by lia. exact Hc.
    + specialize (IH (pre ++ [x]) (add_mean x st1)).
      rewrite length_app in IH. simpl in IH.
      replace (length pre + 1)%nat with (S (length pre)) in IH by lia.
      apply IH; [|exact Hst2].
      rewrite Hv, <- app_assoc. reflexivity.
Qed.

(** [rolling(window = w).mean()] is the trailing average, index by index. *)
Lemma rolling_mean_spec (w : nat) (values : list cell) :
  (0 < w)%nat ->
  Forall2 cell_eq (rolling_mean w values)
          (map (trailing_avg w values) (seq 0 (length values))).
Proof.
  intros Hw. unfold rolling_mean.
  apply (roll_mean_loop_spec w values Hw values [] _ eq_refl).
  split; simpl; reflexivity.
Qed.

Lemma roll_mean_loop_length w values rest :
  forall i st, length (roll_mean_loop w values i rest st) = length rest.
Proof.
  induction rest as [|x rest IH]; intros i st; simpl; [reflexivity|].
  rewrite IH. reflexivity.
Qed.

Lemma rolling_mean_length w values :
  length (rolling_mean w values) = length values.
Proof. apply roll_mean_loop_length. Qed.

Lemma rolling_mean_lookup (w : nat) (values : list cell) (i : nat) :
  (0 < w)%nat -> (i < length values)%nat ->
  exists c, rolling_mean w values !! i = Some c
            /\ cell_eq c (trailing_avg w values i).
Proof.
  intros Hw Hi.
  pose proof (rolling_mean_spec w values Hw) as HF.
  assert (map (trailing_avg w values) (seq 0 (length values)) !! i
          = Some (trailing_avg w values i)) as Hr.
  { rewrite list_lookup_fmap, lookup_seq_lt by assumption. reflexivity. }
  destruct (Forall2_lookup_r _ _ _ _ _ HF Hr) as (c & Hc & Heq).
  exists c. split; assumption.
Qed.

End RollingFacts.

Module FrameFacts.
Import Num Pandas.

Lemma get_set_col_eq name c cs : get_col name (set_col name c cs) = Some c.
Proof.
  induction cs as [|[n c0] cs IH]; simpl.
  - rewrite String.eqb_refl. reflexivity.
  - destruct (String.eqb n name) eqn:E; simpl.
    + rewrite String.eqb_refl. reflexivity.
    + rewrite E. exact IH.
Qed.

Lemma get_set_col_ne name name' c cs :
  name <> name' -> get_col name' (set_col name c cs) = get_col name' cs.
Proof.
  intros Hne. induction cs as [|[n c0] cs IH]; simpl.
  - apply String.eqb_neq in Hne. rewrite Hne. reflexivity.
  - destruct (String.eqb n name) eqn:E; simpl.
    + apply String.eqb_eq in E. subst n.
      apply String.eqb_neq in Hne. rewrite Hne. reflexivity.
    + destruct (String.eqb n name'); [reflexivity | exact IH].
Qed.

Lemma getitem_setitem_eq frame name c :
  getitem (setitem frame name c) name = Ok c.
Proof. unfold getitem, setitem. simpl. rewrite get_set_col_eq. reflexivity. Qed.

Lemma getitem_setitem_ne frame name name' c :
  name <> name' -> getitem (setitem frame name c) name' = getitem frame name'.
Proof.
  intros Hne. unfold getitem, setitem. simpl.
  rewrite get_set_col_ne by assumption. reflexivity.
Qed.

End FrameFacts.

Module PlotFacts.
Import Num Pandas App FrameFacts.

Lemma num_col_setitem_eq frame name v :
  num_col (setitem frame name (NumCol v)) name = Ok v.
Proof. unfold num_col. rewrite getitem_setitem_eq. reflexivity. Qed.

Lemma num_col_setitem_ne frame name name' c :
  name <> name' -> num_col (setitem frame name c) name' = num_col frame name'.
Proof.
  intros Hne. unfold num_col. rewrite getitem_setitem_ne by assumption. reflexivity.
Qed.

(** The frame at [l] after the two assignments of [plot]. *)
Lemma plot_body_run inp (l : loc) (h : Heap) frame temps :
  h !! l = Some frame ->
  num_col frame "temperature_2m_min" = Ok temps ->
  let frame' :=
    setitem (setitem frame "weekrollingavg" (NumCol (rolling_mean 7 temps)))
            "monthrollingavg" (NumCol (rolling_mean 30 temps)) in
  plot_body inp l h = (draw inp frame', <[l := frame']> h).
Proof.
  intros Hl Ht frame'. unfold plot_body, assign_rolling.
  assert (l < length h)%nat as Hlt by (eapply lookup_lt_Some; eassumption).
  unfold Heap, loc in *.
  rewrite Hl, Ht. cbn [obind].
  rewrite list_lookup_insert_eq by assumption.
  rewrite num_col_setitem_ne by discriminate. rewrite Ht. cbn [obind].
  rewrite list_insert_insert_eq.
  rewrite list_lookup_insert_eq by assumption.
  reflexivity.
Qed.

End PlotFacts.

Module TableFacts.
Import Num Pandas App TableView.

Lemma cell_ltb_spec x t : cell_ltb x t = true <-> strictly_below x t.
Proof.
  unfold cell_ltb, strictly_below. destruct x as [q|].
  - destruct (Qlt_le_dec q (inject_Z t)) as [Hlt|Hge]; split.
    + intros _. exists q. split; [reflexivity | exact Hlt].
    + reflexivity.
    + discriminate.
    + intros (q' & [= <-] & Hlt). exfalso. eapply Qlt_not_le; eassumption.
  - split; [discriminate | intros (q & [=] & _)].
Qed.

Lemma arange_down_length start stop :
  length (arange_down start stop) = Z.to_nat (start - stop).
Proof. unfold arange_down. rewrite length_map, length_seq. reflexivity. Qed.

Lemma arange_down_lookup start stop (k : nat) :
  (k < Z.to_nat (start - stop))%nat ->
  arange_down start stop !! k = Some (start - Z.of_nat k).
Proof.
  intros Hk. unfold arange_down.
  rewrite list_lookup_fmap, lookup_seq_lt by assumption. reflexivity.
Qed.

Lemma days_below_loop_ok histdf temps vallist :
  num_col histdf "temperature_2m_min" = Ok temps ->
  days_below_loop histdf vallist = Ok (map (count_lt temps) vallist).
Proof.
  intros Hc. induction vallist as [|i rest IH]; simpl.
  - reflexivity.
  - rewrite Hc, IH. reflexivity.
Qed.

Lemma zip_rows_map temps n ts :
  zip_rows ts (map (count_lt temps) ts)
           (map (fun d => float_round (truediv d (Z.of_nat n)) 3)
                (map (count_lt temps) ts))
  = map (row_at temps n) ts.
Proof.
  induction ts as [|t ts IH]; simpl; [reflexivity|].
  rewrite IH. reflexivity.
Qed.

(** The table, row by row, for a frame that has the temperature column. *)
Lemma hist_table_body_rows histdf temps low high :
  num_col histdf "temperature_2m_min" = Ok temps ->
  exists t,
    hist_table_body histdf (low, high) = Ok t
    /\ table_rows t = map (row_at temps (nrows histdf)) (arange_down high (low - 1)).
Proof.
  intros Hc. unfold hist_table_body. simpl.
  rewrite (days_below_loop_ok _ _ _ Hc). simpl.
  eexists. split; [reflexivity|].
  unfold table_rows. simpl. apply zip_rows_map.
Qed.

Lemma count_lt_bounds temps t : 0 <= count_lt temps t <= Z.of_nat (length temps).
Proof.
  unfold count_lt.
  pose proof (List.filter_length_le (fun x => cell_ltb x t) temps). lia.
Qed.

End TableFacts.

Import Num Pandas App TableView.

(** C1.  For every series and every range [low <= high] the summary table
    has [high - low + 1] rows; row number [k] (from the top) is the row of
    temperature [high - k], so the rows run from [high] down to [low]
    without gap or repetition; and its days-below value is the number of
    entries of the series whose minimum temperature is strictly less than
    that temperature. *)
Theorem hist_table_descending_counts
        (histdf : DataFrame) (temps : list cell) (low high : Z) :
  num_col histdf "temperature_2m_min" = Ok temps ->
  low <= high ->
  exists t,
    hist_table_body histdf (low, high) = Ok t
    /\ length (table_rows t) = Z.to_nat (high - low + 1)
    /\ (forall k : nat, (k < Z.to_nat (high - low + 1))%nat ->
        exists r, table_rows t !! k = Some r
                  /\ temperature r = high - Z.of_nat k
                  /\ days_below r
                     = Z.of_nat (length (List.filter
                                           (fun x => cell_ltb x (temperature r)) temps)))
    /\ (forall x t0, cell_ltb x t0 = true <-> strictly_below x t0).
Proof.
  intros Hc Hle.
  destruct (TableFacts.hist_table_body_rows histdf temps low high Hc) as (t & Ht & Hrows).
  exists t. split; [exact Ht|]. rewrite Hrows.
  replace (high - low + 1) with (high - (low - 1)) by lia.
  split; [|split].
  - rewrite length_map. apply TableFacts.arange_down_length.
  - intros k Hk. exists (row_at temps (nrows histdf) (high - Z.of_nat k)).
    rewrite list_lookup_fmap, TableFacts.arange_down_lookup by assumption.
    repeat split.
  - apply TableFacts.cell_ltb_spec.
Qed.

Lemma hist_table_descending_counts_witness :
  exists t,
    hist_table_body Demo.frame8 (3, 5) = Ok t
    /\ map temperature (table_rows t) = [5; 4; 3]
    /\ map days_below (table_rows t) = [4; 3; 2].
Proof.
  destruct (hist_table_descending_counts Demo.frame8 Demo.temps8 3 5 eq_refl ltac:(lia))
    as (t & Ht & _).
  exists t. split; [exact Ht|].
  vm_compute in Ht. injection Ht as <-. split; reflexivity.
Defined.

Module NumFacts.
Import FloatBounds.

Lemma rint_between (q : Q) (a b : Z) :
  (inject_Z a <= q)%Q -> (q <= inject_Z b)%Q -> a <= rint q <= b.
Proof.
  intros Ha Hb.
  assert (a <= Qfloor q) as Hfa
    by (rewrite <- (Qfloor_Z a); apply Qfloor_resp_le; exact Ha).
  assert (Qfloor q <= b) as Hfb
    by (rewrite <- (Qfloor_Z b); apply Qfloor_resp_le; exact Hb).
  assert (Qfloor q = b -> (q - inject_Z (Qfloor q) < 1 # 2)%Q) as Htop.
  { intros E. rewrite E.
    assert (q == inject_Z b)%Q as ->
      by (apply Qle_antisym; [exact Hb | rewrite <- E; apply Qfloor_le]).
    assert (inject_Z b - inject_Z b == 0)%Q as -> by ring.
    reflexivity. }
  unfold rint.
  destruct (Qcompare_spec (q - inject_Z (Qfloor q)) (1 # 2)) as [He|Hl|Hg].
  - destruct (Z.even (Qfloor q)); [lia|].
    split; [lia|]. destruct (Z.eq_dec (Qfloor q) b) as [E|]; [|lia].
    specialize (Htop E). rewrite He in Htop. discriminate.
  - lia.
  - split; [lia|]. destruct (Z.eq_dec (Qfloor q) b) as [E|]; [|lia].
    specialize (Htop E). exfalso. eapply Qlt_irrefl, Qlt_trans; eassumption.
Qed.

Lemma rint_error (x : Q) : (Qabs (inject_Z (rint x) - x) <= 1 # 2)%Q.
Proof.
  pose proof (Qfloor_le x) as Hlo. pose proof (Qlt_floor x) as Hhi.
  rewrite inject_Z_plus in Hhi. change (inject_Z 1) with 1%Q in Hhi.
  apply Qabs_Qle_condition. unfold rint.
  destruct (Qcompare_spec (x - inject_Z (Qfloor x)) (1 # 2)) as [He|Hl|Hg].
  - destruct (Z.even (Qfloor x)).
    + lra.
    + rewrite inject_Z_plus. change (inject_Z 1) with 1%Q. lra.
  - lra.
  - rewrite inject_Z_plus. change (inject_Z 1) with 1%Q. lra.
Qed.

Lemma p2_pos e : (0 < Qpower 2 e)%Q.
Proof. apply Qpower_0_lt. reflexivity. Qed.

Lemma p2_add a b : (Qpower 2 (a + b) == Qpower 2 a * Qpower 2 b)%Q.
Proof. apply Qpower_plus. discriminate. Qed.

Lemma p2_Z n : 0 <= n -> (inject_Z (2 ^ n) == Qpower 2 n)%Q.
Proof. intros Hn. apply (Zpower_Qpower 2 n Hn). Qed.

(** A positive rational lies within a factor two of the power of two
    given by the bit lengths of its numerator and denominator. *)
Lemma log2_bounds (q : Q) :
  (0 < q)%Q ->
  (Qpower 2 (Z.log2 (Qnum q) - Z.log2 (Z.pos (Qden q)) - 1) < q)%Q
  /\ (q < Qpower 2 (Z.log2 (Qnum q) - Z.log2 (Z.pos (Qden q)) + 1))%Q.
Proof.
  intros Hq. destruct q as [a b]. cbn [Qnum Qden].
  assert (0 < a) as Ha by (unfold Qlt in Hq; simpl in Hq; lia).
  destruct (Z.log2_spec a Ha) as [Ha1 Ha2].
  destruct (Z.log2_spec (Z.pos b) ltac:(lia)) as [Hb1 Hb2].
  pose proof (Z.log2_nonneg a) as Hla. pose proof (Z.log2_nonneg (Z.pos b)) as Hlb.
  remember (Z.log2 a) as la eqn:Ela. remember (Z.log2 (Z.pos b)) as lb eqn:Elb.
  clear Ela Elb. set (l := la - lb).
  assert (inject_Z (2 ^ la) <= inject_Z a)%Q as Qa1 by (rewrite <- Zle_Qle; exact Ha1).
  assert (inject_Z a < inject_Z (2 ^ Z.succ la))%Q as Qa2 by (rewrite <- Zlt_Qlt; exact Ha2).
  assert (inject_Z (2 ^ lb) <= inject_Z (Z.pos b))%Q as Qb1 by (rewrite <- Zle_Qle; exact Hb1).
  assert (inject_Z (Z.pos b) < inject_Z (2 ^ Z.succ lb))%Q as Qb2 by (rewrite <- Zlt_Qlt; exact Hb2).
  rewrite p2_Z in Qa1, Qa2, Qb1, Qb2 by lia.
  assert (0 < inject_Z (Z.pos b))%Q as Hbpos by reflexivity.
  rewrite (Qmake_Qdiv a b).
  pose proof (p2_pos (l - 1)) as P1. pose proof (p2_pos (l + 1)) as P2.
  split.
  - apply Qlt_shift_div_l; [exact Hbpos|].
    apply Qlt_le_trans with (Qpower 2 (l - 1) * Qpower 2 (Z.succ lb))%Q.
    + apply Qmult_lt_l; assumption.
    + rewrite <- p2_add. replace (l - 1 + Z.succ lb) with la by (subst l; lia). exact Qa1.
  - apply Qlt_shift_div_r; [exact Hbpos|].
    apply Qlt_le_trans with (Qpower 2 (Z.succ la)); [exact Qa2|].
    replace (Z.succ la) with (l + 1 + lb) by (subst l; lia).
    rewrite p2_add. apply Qmult_le_l; assumption.
Qed.

(** The exponent puts the significand in [2^52, 2^53). *)
Lemma b64_exponent_spec (q : Q) :
  (0 < q)%Q ->
  (inject_Z (2 ^ 52) <= q / Qpower 2 (b64_exponent q))%Q
  /\ (q / Qpower 2 (b64_exponent q) < inject_Z (2 ^ 53))%Q.
Proof.
  intros Hq. destruct (log2_bounds q Hq) as [Hlo Hhi].
  unfold b64_exponent.
  set (l := Z.log2 (Qnum q) - Z.log2 (Z.pos (Qden q))) in *.
  set (e0 := l - 53).
  pose proof (p2_pos e0) as Pe.
  assert (inject_Z (2 ^ 52) < q / Qpower 2 e0)%Q as H52.
  { apply Qlt_shift_div_l; [exact Pe|]. rewrite (p2_Z 52) by lia. rewrite <- p2_add.
    replace (52 + e0) with (l - 1) by (unfold e0; lia). exact Hlo. }
  assert (q / Qpower 2 e0 < inject_Z (2 ^ 54))%Q as H54.
  { apply Qlt_shift_div_r; [exact Pe|]. rewrite (p2_Z 54) by lia. rewrite <- p2_add.
    replace (54 + e0) with (l + 1) by (unfold e0; lia). exact Hhi. }
  destruct (Qlt_le_dec (q / Qpower 2 e0) (inject_Z (2 ^ 53))) as [Hlt|Hge].
  - split; [apply Qlt_le_weak; exact H52 | exact Hlt].
  - assert (q / Qpower 2 (e0 + 1) == q / Qpower 2 e0 * (1 # 2))%Q as ->.
    { rewrite p2_add. change (Qpower 2 1) with 2%Q. field.
      intros H0. rewrite H0 in Pe. discriminate. }
    change (inject_Z (2 ^ 52)) with 4503599627370496%Q in *.
    change (inject_Z (2 ^ 53)) with 9007199254740992%Q in *.
    change (inject_Z (2 ^ 54)) with 18014398509481984%Q in *.
    set (x0 := (q / Qpower 2 e0)%Q) in *. clearbody x0. clear Hlo Hhi Pe.
    split; lra.
Qed.

Lemma b64_pos_error (q : Q) :
  (0 < q)%Q -> (Qabs (b64_pos q - q) <= q * u64)%Q.
Proof.
  intros Hq. destruct (b64_exponent_spec q Hq) as [Hlo _].
  unfold b64_pos. set (e := b64_exponent q) in *.
  pose proof (p2_pos e) as Pe. set (t := Qpower 2 e) in *.
  pose proof (rint_error (q / t)) as Hr. apply Qabs_Qle_condition in Hr.
  set (m := inject_Z (rint (q / t))) in *.
  assert (q == q / t * t)%Q as Hqt
    by (field; intros H0; rewrite H0 in Pe; discriminate).
  set (x := (q / t)%Q) in *.
  change (inject_Z (2 ^ 52)) with 4503599627370496%Q in Hlo.
  assert (0 <= t * (x - 4503599627370496))%Q as H1
    by (apply Qmult_le_0_compat; lra).
  assert (0 <= t * ((1 # 2) - (m - x)))%Q as H2
    by (apply Qmult_le_0_compat; lra).
  assert (0 <= t * ((m - x) + (1 # 2)))%Q as H3
    by (apply Qmult_le_0_compat; lra).
  apply Qabs_Qle_condition. unfold u64. rewrite Hqt at 1 2 4. 
  split; nra.
Qed.

Lemma b64_error (q : Q) : (0 <= q)%Q -> (Qabs (b64 q - q) <= q * u64)%Q.
Proof.
  intros Hq. unfold b64. rewrite Qred_correct.
  destruct (Qcompare_spec q 0) as [He|Hl|Hg].
  - rewrite He. apply Qabs_Qle_condition. unfold u64. split; lra.
  - exfalso. lra.
  - apply b64_pos_error. exact Hg.
Qed.

Lemma b64_nonneg (q : Q) : (0 <= q)%Q -> (0 <= b64 q)%Q.
Proof.
  intros Hq. pose proof (b64_error q Hq) as H.
  apply Qabs_Qle_condition in H. unfold u64 in H. lra.
Qed.

Lemma ratio_unit (d n : Z) :
  0 <= d <= n -> 0 < n ->
  (0 <= inject_Z d / inject_Z n)%Q /\ (inject_Z d / inject_Z n <= 1)%Q.
Proof.
  intros Hd Hn. destruct n as [|p|p]; try lia.
  unfold Qle, Qdiv, Qmult, Qinv, inject_Z. simpl. split; lia.
Qed.

Lemma scaled_count_error (d n : Z) :
  0 <= d <= n -> 0 < n ->
  (Qabs (inject_Z (rint (b64 (b64 (inject_Z d / inject_Z n) * 1000)))
         - 1000 * (inject_Z d / inject_Z n)) <= (1 # 2) + eps)%Q.
Proof.
  intros Hd Hn. destruct (ratio_unit d n Hd Hn) as [Hq0 Hq1].
  set (q := (inject_Z d / inject_Z n)%Q) in *. clearbody q.
  pose proof (b64_error q Hq0) as E1. pose proof (b64_nonneg q Hq0) as P1.
  set (x1 := b64 q) in *. clearbody x1.
  assert (0 <= x1 * 1000)%Q as P2 by lra.
  pose proof (b64_error (x1 * 1000) P2) as E2.
  set (y := b64 (x1 * 1000)) in *. clearbody y.
  pose proof (rint_error y) as E3.
  set (k := inject_Z (rint y)) in *. clearbody k.
  apply Qabs_Qle_condition in E1, E2, E3. apply Qabs_Qle_condition.
  unfold u64, eps in *. split; lra.
Qed.

Lemma inject_Z_cross (d n k : Z) :
  (inject_Z (2 * (k * n - 1000 * d))
   == 2 * (inject_Z k * inject_Z n - 1000 * inject_Z d))%Q.
Proof.
  rewrite inject_Z_mult. unfold Z.sub.
  rewrite inject_Z_plus, inject_Z_opp, !inject_Z_mult.
  change (inject_Z 2) with 2%Q. change (inject_Z 1000) with 1000%Q. ring.
Qed.

Lemma half_thousandth (d n k : Z) :
  0 < n < 2 ^ 40 ->
  (Qabs (inject_Z k - 1000 * (inject_Z d / inject_Z n)) <= (1 # 2) + eps)%Q ->
  (Qabs (inject_Z k / inject_Z 1000 - inject_Z d / inject_Z n) <= 1 # 2000)%Q.
Proof.
  intros Hn H. apply Qabs_Qle_condition in H.
  assert (0 < inject_Z n)%Q as Hnq by (change 0%Q with (inject_Z 0); rewrite <- Zlt_Qlt; lia).
  assert (inject_Z n < 1099511627776)%Q as Hnb
    by (change 1099511627776%Q with (inject_Z (2 ^ 40)); rewrite <- Zlt_Qlt; lia).
  assert (inject_Z d / inject_Z n * inject_Z n == inject_Z d)%Q as Hr
    by (field; lra).
  pose proof (inject_Z_cross d n k) as Hx.
  set (r := (inject_Z d / inject_Z n)%Q) in *. clearbody r.
  assert (-(n) <= 2 * (k * n - 1000 * d) <= n) as [HZ1 HZ2].
  { assert (inject_Z (2 * (k * n - 1000 * d)) < inject_Z (n + 1))%Q as Hup.
    { rewrite Hx, inject_Z_plus. change (inject_Z 1) with 1%Q.
      rewrite <- Hr. unfold eps in H. nra. }
    assert (inject_Z (- (n + 1)) < inject_Z (2 * (k * n - 1000 * d)))%Q as Hdn.
    { rewrite Hx, inject_Z_opp, inject_Z_plus. change (inject_Z 1) with 1%Q.
      rewrite <- Hr. unfold eps in H. nra. }
    rewrite <- Zlt_Qlt in Hup, Hdn. lia. }
  rewrite Zle_Qle in HZ1, HZ2. rewrite Hx in HZ1, HZ2. rewrite inject_Z_opp in HZ1.
  rewrite <- Hr in HZ1, HZ2.
  change (inject_Z 1000) with 1000%Q.
  assert (inject_Z k / 1000 == inject_Z k * (1 # 1000))%Q as -> by field.
  apply Qabs_Qle_condition. split; nra.
Qed.

(** The double nearest to [q > 0]: a whole significand between [2^52]
    and [2^53] times a power of two, within half a unit of its last
    place of [q]. *)
Lemma b64_pos_nearest (q : Q) :
  (0 < q)%Q ->
  exists (m e : Z),
    b64_pos q = (inject_Z m * Qpower 2 e)%Q
    /\ 2 ^ 52 <= m <= 2 ^ 53
    /\ (Qabs (b64_pos q - q) <= (1 # 2) * Qpower 2 e)%Q.
Proof.
  intros Hq. destruct (b64_exponent_spec q Hq) as [Hlo Hhi].
  exists (rint (q / Qpower 2 (b64_exponent q))), (b64_exponent q).
  split; [reflexivity|]. split.
  - apply rint_between; [exact Hlo | apply Qlt_le_weak; exact Hhi].
  - unfold b64_pos. set (e := b64_exponent q) in *.
    pose proof (p2_pos e) as Pe. set (t := Qpower 2 e) in *.
    pose proof (rint_error (q / t)) as Hr. apply Qabs_Qle_condition in Hr.
    set (m := inject_Z (rint (q / t))) in *.
    assert (q == q / t * t)%Q as Hqt
      by (field; intros H0; rewrite H0 in Pe; discriminate).
    set (x := (q / t)%Q) in *.
    assert (0 <= t * ((1 # 2) - (m - x)))%Q as H2
      by (apply Qmult_le_0_compat; lra).
    assert (0 <= t * ((m - x) + (1 # 2)))%Q as H3
      by (apply Qmult_le_0_compat; lra).
    apply Qabs_Qle_condition. rewrite Hqt at 1 2. split; nra.
Qed.

(** [b64 q] is a double, and a nearest one: a whole significand of at
    most 53 bits times a power of two, within half a unit of its last
    place of [q]. *)
Lemma b64_nearest (q : Q) :
  (0 <= q)%Q ->
  exists (m e : Z),
    (b64 q == inject_Z m * Qpower 2 e)%Q
    /\ 0 <= m <= 2 ^ 53
    /\ ((0 < q)%Q -> 2 ^ 52 <= m)
    /\ (Qabs (b64 q - q) <= (1 # 2) * Qpower 2 e)%Q.
Proof.
  intros Hq. unfold b64. destruct (Qcompare_spec q 0) as [He|Hl|Hg].
  - exists 0, 0. rewrite Qred_correct. split; [reflexivity|]. split; [lia|].
    split; [intros H; rewrite He in H; discriminate|].
    rewrite He. vm_compute. discriminate.
  - exfalso. lra.
  - destruct (b64_pos_nearest q Hg) as (m & e & Hm & Hb & Herr).
    exists m, e. rewrite Qred_correct. split; [rewrite Hm; reflexivity|].
    split; [lia|]. split; [intros _; lia | exact Herr].
Qed.

(** The proportion shown for a count [d] out of [n]: the double nearest
    to [k / 1000], for a whole number [k] of thousandths that the
    roundings leave within a half, and a hair, of [1000 * d / n]. *)
Lemma proportion_spec (d n : Z) :
  0 <= d <= n -> 0 < n ->
  exists k : Z,
    float_round (truediv d n) 3 = Fin (b64 (inject_Z k / inject_Z 1000))
    /\ 0 <= k <= 1000
    /\ (Qabs (inject_Z k - 1000 * (inject_Z d / inject_Z n)) <= (1 # 2) + eps)%Q
    /\ (0 <= b64 (inject_Z k / inject_Z 1000))%Q
    /\ (b64 (inject_Z k / inject_Z 1000) <= 1)%Q
    /\ (Qabs (b64 (inject_Z k / inject_Z 1000) - inject_Z d / inject_Z n)
        <= (1 # 2000) + (1 # 1125899906842624))%Q.
Proof.
  intros Hd Hn.
  pose proof (scaled_count_error d n Hd Hn) as Herr.
  destruct (ratio_unit d n Hd Hn) as [Hq0 Hq1].
  unfold truediv. replace (n =? 0) with false by (symmetry; apply Z.eqb_neq; lia).
  cbn [float_round]. unfold np_round. change (10 ^ Z.of_nat 3) with 1000.
  change (inject_Z 1000) with 1000%Q in *.
  set (q := (inject_Z d / inject_Z n)%Q) in *.
  set (k := rint (b64 (b64 q * 1000))) in *.
  exists k. split; [reflexivity|].
  assert (0 <= k <= 1000) as Hk.
  { apply Qabs_Qle_condition in Herr. unfold eps in Herr.
    assert (inject_Z (-1) < inject_Z k)%Q as H1
      by (change (inject_Z (-1)) with (-1)%Q; lra).
    assert (inject_Z k < inject_Z 1001)%Q as H2
      by (change (inject_Z 1001) with 1001%Q; lra).
    rewrite <- Zlt_Qlt in H1, H2. lia. }
  split; [exact Hk|]. split; [exact Herr|].
  assert (inject_Z k / 1000 == inject_Z k * (1 # 1000))%Q as Hdiv by field.
  assert (0 <= inject_Z k)%Q as Hk0
    by (change 0%Q with (inject_Z 0); rewrite <- Zle_Qle; lia).
  assert (inject_Z k <= 1000)%Q as Hk1
    by (change 1000%Q with (inject_Z 1000); rewrite <- Zle_Qle; lia).
  assert (0 <= inject_Z k / 1000)%Q as Hfrac by (rewrite Hdiv; lra).
  pose proof (b64_error _ Hfrac) as Hp. apply Qabs_Qle_condition in Hp.
  pose proof (b64_nonneg _ Hfrac) as Hp0.
  unfold u64 in Hp.
  assert (b64 (inject_Z k / 1000) <= 1)%Q as Hp1.
  { destruct (Z.eq_dec k 1000) as [->|Hne]; [vm_compute; discriminate|].
    assert (inject_Z k <= 999)%Q
      by (change 999%Q with (inject_Z 999); rewrite <- Zle_Qle; lia).
    set (p := b64 (inject_Z k / 1000)) in *. clearbody p.
    rewrite Hdiv in Hp. lra. }
  split; [exact Hp0|]. split; [exact Hp1|].
  apply Qabs_Qle_condition in Herr. unfold eps in Herr.
  set (p := b64 (inject_Z k / 1000)) in *. clearbody p.
  rewrite Hdiv in Hp. apply Qabs_Qle_condition. split; lra.
Qed.

(** With fewer than [2^40] entries the whole number of thousandths is a
    nearest one: within half a thousandth of the quotient. *)
Lemma proportion_nearest (d n k : Z) :
  0 < n < 2 ^ 40 ->
  (Qabs (inject_Z k - 1000 * (inject_Z d / inject_Z n)) <= (1 # 2) + eps)%Q ->
  (Qabs (inject_Z k / inject_Z 1000 - inject_Z d / inject_Z n) <= 1 # 2000)%Q.
Proof. apply half_thousandth. Qed.

End NumFacts.

(** C9.  For every non-empty series and every row of the table, the
    proportion is the quotient of the row's days-below count by the length
    of the series, rounded to three decimals, and it lies between 0 and 1.
    In the binary64 arithmetic of the program: it is the double nearest to
    [k / 1000] (a significand of at most 53 bits times a power of two,
    within half a unit of its last place of [k / 1000]) for a whole
    number [k] of thousandths between 0 and 1000;
    [k / 1000] is within half a thousandth of the quotient (for every
    series of fewer than [2^40] entries; for any series, [k] is within a
    half and [2^-41] of the thousandfold quotient); and the proportion
    itself is within half a thousandth and [2^-50] of the quotient. *)
Theorem proportion_rounded_in_unit_interval
        (histdf : DataFrame) (temps : list cell) (low high : Z) :
  num_col histdf "temperature_2m_min" = Ok temps ->
  nrows histdf = length temps ->
  (0 < length temps)%nat ->
  exists t,
    hist_table_body histdf (low, high) = Ok t
    /\ forall r, In r (table_rows t) ->
       exists (p : Q) (k : Z),
         proportion_below r = Fin p
         /\ p = b64 (inject_Z k / inject_Z 1000)
         /\ 0 <= k <= 1000
         /\ (Z.of_nat (length temps) < 2 ^ 40 ->
             (Qabs (inject_Z k / inject_Z 1000
                    - inject_Z (days_below r) / inject_Z (Z.of_nat (length temps)))
              <= 1 # 2000)%Q)
         /\ (Qabs (inject_Z k
                   - 1000 * (inject_Z (days_below r) / inject_Z (Z.of_nat (length temps))))
             <= (1 # 2) + (1 # 2199023255552))%Q
         /\ (Qabs (p - inject_Z (days_below r) / inject_Z (Z.of_nat (length temps)))
             <= (1 # 2000) + (1 # 1125899906842624))%Q
         /\ (0 <= p)%Q /\ (p <= 1)%Q
         /\ (exists m e : Z,
                (p == inject_Z m * Qpower 2 e)%Q
                /\ 0 <= m <= 2 ^ 53
                /\ (0 < k -> 2 ^ 52 <= m)
                /\ (Qabs (p - inject_Z k / inject_Z 1000) <= (1 # 2) * Qpower 2 e)%Q).
Proof.
  intros Hc Hn Hpos.
  destruct (TableFacts.hist_table_body_rows histdf temps low high Hc) as (t & Ht & Hrows).
  exists t. split; [exact Ht|]. rewrite Hrows.
  intros r Hr. apply in_map_iff in Hr as (t0 & <- & _).
  unfold row_at. cbn [proportion_below days_below]. rewrite Hn.
  pose proof (TableFacts.count_lt_bounds temps t0) as Hb.
  destruct (NumFacts.proportion_spec (count_lt temps t0) (Z.of_nat (length temps)) Hb
              ltac:(lia)) as (k & Hp & Hk & Herr & Hp0 & Hp1 & Hclose).
  exists (b64 (inject_Z k / inject_Z 1000)), k.
  split; [exact Hp|]. split; [reflexivity|]. split; [exact Hk|]. split.
  - intros Hlen. apply NumFacts.proportion_nearest; [lia | exact Herr].
  - split; [exact Herr|]. split; [exact Hclose|]. split; [exact Hp0|]. split; [exact Hp1|].
    assert (0 <= inject_Z k / inject_Z 1000)%Q as Hfrac.
    { apply Qle_shift_div_l; [reflexivity|]. rewrite Qmult_0_l.
      change 0%Q with (inject_Z 0). rewrite <- Zle_Qle. lia. }
    destruct (NumFacts.b64_nearest _ Hfrac) as (m & e & Hm & Hbits & Hnorm & Hulp).
    exists m, e. split; [exact Hm|]. split; [exact Hbits|]. split; [|exact Hulp].
    intros Hkpos. apply Hnorm. apply Qlt_shift_div_l; [reflexivity|]. rewrite Qmult_0_l.
    change 0%Q with (inject_Z 0). rewrite <- Zlt_Qlt. exact Hkpos.
Qed.

Lemma proportion_rounded_in_unit_interval_witness :
  exists t,
    hist_table_body Demo.frame8 (3, 5) = Ok t
    /\ map proportion_below (table_rows t) = [Fin (1 # 2); Fin (3 # 8); Fin (1 # 4)].
Proof.
  destruct (proportion_rounded_in_unit_interval Demo.frame8 Demo.temps8 3 5
              eq_refl eq_refl ltac:(simpl; lia)) as (t & Ht & _).
  exists t. split; [exact Ht|].
  vm_compute in Ht. injection Ht as <-. reflexivity.
Defined.

(** The program's arithmetic on a tie: 203 days out of 400 are 0.5075;
    the double of that quotient, a thousandfold, is just below 507.5, and
    the proportion shown is the double of 0.507. *)
Example proportion_203_of_400 :
  float_round (truediv 203 400) 3 = Fin (b64 (507 # 1000))
  /\ rint (inject_Z 203 / inject_Z 400 * 1000) = 508.
Proof. split; vm_compute; reflexivity. Qed.

(** C5, as the program has it.  A series of length zero raises nothing:
    the table has its usual rows, each with a days-below count of 0 and a
    proportion that is NaN, the float quotient 0/0.  For a series of
    non-zero length every proportion is a number: the days-below count
    divided by the length and rounded to three decimals, in binary64 the
    double nearest to [k / 1000] for a whole number [k] between 0 and
    1000 within a half and [2^-41] of the thousandfold quotient. *)
Theorem proportion_of_empty_series_is_nan
        (histdf : DataFrame) (temps : list cell) (low high : Z) :
  num_col histdf "temperature_2m_min" = Ok temps ->
  nrows histdf = length temps ->
  exists t,
    hist_table_body histdf (low, high) = Ok t
    /\ forall r, In r (table_rows t) ->
       (temps = [] -> days_below r = 0 /\ proportion_below r = NaN)
       /\ (temps <> [] ->
           exists k : Z,
             proportion_below r = Fin (b64 (inject_Z k / inject_Z 1000))
             /\ 0 <= k <= 1000
             /\ (Qabs (inject_Z k
                       - 1000 * (inject_Z (days_below r)
                                 / inject_Z (Z.of_nat (length temps))))
                 <= (1 # 2) + (1 # 2199023255552))%Q).
Proof.
  intros Hc Hn.
  destruct (TableFacts.hist_table_body_rows histdf temps low high Hc) as (t & Ht & Hrows).
  exists t. split; [exact Ht|]. rewrite Hrows.
  intros r Hr. apply in_map_iff in Hr as (t0 & <- & _).
  unfold row_at. cbn [proportion_below days_below]. rewrite Hn. split.
  - intros ->. split; reflexivity.
  - intros Hne.
    pose proof (TableFacts.count_lt_bounds temps t0) as Hb.
    assert (0 < Z.of_nat (length temps)) as Hlen
      by (destruct temps; [congruence | simpl; lia]).
    destruct (NumFacts.proportion_spec (count_lt temps t0) (Z.of_nat (length temps)) Hb Hlen)
      as (k & Hp & Hk & Herr & _).
    exists k. split; [exact Hp|]. split; [exact Hk | exact Herr].
Qed.

Lemma proportion_of_empty_series_is_nan_witness :
  exists t,
    hist_table_body Demo.frame0 (0, 1) = Ok t
    /\ map proportion_below (table_rows t) = [NaN; NaN].
Proof.
  destruct (proportion_of_empty_series_is_nan Demo.frame0 [] 0 1 eq_refl eq_refl)
    as (t & Ht & _).
  exists t. split; [exact Ht|].
  vm_compute in Ht. injection Ht as <-. reflexivity.
Defined.

(** C5 as stated fails.  An archive whose range ends before it starts
    reports no date and no value; [filter_df] makes of it a frame of
    length zero, and showing the table for the thresholds 0..15 raises no
    [EmptySeriesError]: the table comes out, with 16 rows whose proportion
    is NaN.  Likewise from the empty frame and the range [0, 1] the table
    is two rows of NaN. *)
Lemma empty_series_raises_nothing :
  fst (hist_table Demo.weather_api_empty Demo.df (start Demo.inputs0))
  <> Raise "EmptySeriesError"
  /\ (exists t,
         fst (hist_table Demo.weather_api_empty Demo.df (start Demo.inputs0)) = Ok t
         /\ Proportion_Below t = repeat NaN 16)
  /\ fst (filter_df Demo.weather_api_empty Demo.df (start Demo.inputs0)) = Ok 0%nat
  /\ heap (snd (filter_df Demo.weather_api_empty Demo.df (start Demo.inputs0)))
     = [Demo.frame0]
  /\ nrows Demo.frame0 = 0%nat
  /\ hist_table_body Demo.frame0 (0, 1)
     = Ok {| Temp := [1; 0]; Days_Below := [0; 0]; Proportion_Below := [NaN; NaN] |}.
Proof.
  split; [|split; [|split; [|split; [|split]]]].
  - vm_compute. discriminate.
  - eexists. split; reflexivity.
  - reflexivity.
  - reflexivity.
  - reflexivity.
  - reflexivity.
Qed.

Module CatalogFacts.
Import Catalog.

Lemma filter_first {A} (p : A -> bool) pre x post :
  (forall y, In y pre -> p y = false) -> p x = true ->
  List.filter p (pre ++ x :: post) = x :: List.filter p post.
Proof.
  intros Hpre Hx. induction pre as [|y pre IH]; simpl.
  - rewrite Hx. reflexivity.
  - rewrite (Hpre y (or_introl eq_refl)). apply IH.
    intros z Hz. apply Hpre. right. exact Hz.
Qed.

Lemma filter_none {A} (p : A -> bool) l :
  (forall y, In y l -> p y = false) -> List.filter p l = [].
Proof.
  intros Hl. induction l as [|y l IH]; simpl; [reflexivity|].
  rewrite (Hl y (or_introl eq_refl)). apply IH.
  intros z Hz. apply Hl. right. exact Hz.
Qed.

Lemma lookup_first_found field label pre row post :
  city_state row = label ->
  (forall r, In r pre -> city_state r <> label) ->
  lookup_first field label (pre ++ row :: post) = Ok (field row).
Proof.
  intros Hrow Hpre. unfold lookup_first.
  rewrite filter_first; [reflexivity | | apply String.eqb_eq, Hrow].
  intros y Hy. apply String.eqb_neq, Hpre, Hy.
Qed.

Lemma lookup_first_missing field label df :
  (forall r, In r df -> city_state r <> label) ->
  lookup_first field label df = Raise "IndexError".
Proof.
  intros Hdf. unfold lookup_first.
  rewrite filter_none; [reflexivity|].
  intros y Hy. apply String.eqb_neq, Hdf, Hy.
Qed.

Lemma lookup_first_ok_iff field label df :
  (exists v, lookup_first field label df = Ok v)
  <-> exists r, In r df /\ city_state r = label.
Proof.
  unfold lookup_first. split.
  - intros [v Hv].
    destruct (List.filter _ df) as [|r rest] eqn:E; [discriminate|].
    assert (In r (List.filter (fun r => String.eqb (city_state r) label) df)) as Hin
      by (rewrite E; left; reflexivity).
    apply filter_In in Hin as [Hin Hp]. exists r. split; [exact Hin|].
    apply String.eqb_eq, Hp.
  - intros (r & Hin & Hl).
    destruct (List.filter _ df) as [|r' rest] eqn:E; [|eexists; reflexivity].
    assert (In r (List.filter (fun r => String.eqb (city_state r) label) df)) as Hf
      by (apply filter_In; split; [exact Hin | apply String.eqb_eq, Hl]).
    rewrite E in Hf. destruct Hf.
Qed.

End CatalogFacts.

(** C10.  Importing the module looks up the latitude of the first row of
    the catalog whose label is "Urbana, Illinois".  With such a row the
    import succeeds and binds the latitude of the first one; without one
    it fails with [IndexError], the error of indexing an empty list; and
    it succeeds only if the catalog has that label. *)
Theorem load_module_needs_urbana (df : list Catalog.CityRow) :
  (forall pre row post,
      df = pre ++ row :: post ->
      Catalog.city_state row = "Urbana, Illinois"%string ->
      (forall r, In r pre -> Catalog.city_state r <> "Urbana, Illinois"%string) ->
      exists g, load_module df = Ok g /\ g_lat g = Catalog.lat row /\ g_df g = df)
  /\ ((forall r, In r df -> Catalog.city_state r <> "Urbana, Illinois"%string) ->
      load_module df = Raise "IndexError")
  /\ ((exists g, load_module df = Ok g)
      <-> exists r, In r df /\ Catalog.city_state r = "Urbana, Illinois"%string).
Proof.
  split; [|split].
  - intros pre row post -> Hrow Hpre. unfold load_module.
    rewrite (CatalogFacts.lookup_first_found _ _ _ _ _ Hrow Hpre). simpl.
    eexists. split; [reflexivity|]. split; reflexivity.
  - intros Hnone. unfold load_module.
    rewrite (CatalogFacts.lookup_first_missing _ _ _ Hnone). reflexivity.
  - rewrite <- (CatalogFacts.lookup_first_ok_iff Catalog.lat). unfold load_module.
    destruct (lookup_first Catalog.lat "Urbana, Illinois" df) as [v|e]; simpl.
    + split; intros _; eexists; reflexivity.
    + split; intros [x Hx]; discriminate.
Qed.

Lemma load_module_needs_urbana_witness :
  (exists g, load_module Demo.df = Ok g /\ g_lat g = (401106 # 10000)%Q)
  /\ load_module Demo.df_no_urbana = Raise "IndexError".
Proof.
  split.
  - destruct (proj1 (load_module_needs_urbana Demo.df) []
                    (List.hd (Catalog.Build_CityRow "" 0 0) Demo.df)
                    (List.tl Demo.df) eq_refl eq_refl)
      as (g & Hg & Hlat & _).
    + intros r [].
    + exists g. split; [exact Hg | exact Hlat].
  - apply (proj1 (proj2 (load_module_needs_urbana Demo.df_no_urbana))).
    intros r [<-|[]]. discriminate.
Defined.

Module ProcessFacts.
Import Catalog ProcessData.

Lemma process_rows_app raw1 raw2 :
  rows (process (raw1 ++ raw2)) = rows (process raw1) ++ rows (process raw2).
Proof. unfold process. simpl. rewrite List.filter_app, map_app. reflexivity. Qed.

Lemma process_rows_In raw row :
  In row (rows (process raw))
  <-> exists r, In r raw /\ 10000 <= population r /\ row = select r.
Proof.
  unfold process. simpl. rewrite in_map_iff. split.
  - intros (r & <- & Hr). apply filter_In in Hr as [Hin Hp].
    exists r. repeat split; [exact Hin | apply Z.leb_le, Hp].
  - intros (r & Hin & Hp & ->). exists r. split; [reflexivity|].
    apply filter_In. split; [exact Hin | apply Z.leb_le, Hp].
Qed.

End ProcessFacts.

(** C7, as the program has it.  The preprocessing step writes a
    comma-separated file whose header is [city_state,lat,lng]; after the
    header comes one line per row of the raw table whose population is at
    least 10000, in the order of the raw table, and nothing else; the
    label of a row is its city name, a comma and a space, and its state
    name, and its coordinates are those of the raw row. *)
Theorem catalog_file_contents (float_str : Q -> string) (raw : list ProcessData.RawRow) :
  ProcessData.catalog_file float_str raw
  = "city_state,lat,lng"%string
    :: map (ProcessData.csv_row float_str) (Catalog.rows (ProcessData.process raw))
  /\ (forall row,
         In row (Catalog.rows (ProcessData.process raw))
         <-> exists r, In r raw /\ 10000 <= ProcessData.population r
                       /\ row = {| Catalog.city_state :=
                                     (ProcessData.city r ++ ", "
                                      ++ ProcessData.state_name r)%string;
                                   Catalog.lat := ProcessData.raw_lat r;
                                   Catalog.lng := ProcessData.raw_lng r |})
  /\ (forall raw1 r raw2,
         raw = raw1 ++ r :: raw2 ->
         Catalog.rows (ProcessData.process raw)
         = Catalog.rows (ProcessData.process raw1)
           ++ (if 10000 <=? ProcessData.population r then [ProcessData.select r] else [])
           ++ Catalog.rows (ProcessData.process raw2)).
Proof.
  split; [reflexivity|]. split.
  - intros row. apply ProcessFacts.process_rows_In.
  - intros raw1 r raw2 ->.
    rewrite ProcessFacts.process_rows_app.
    change (r :: raw2) with ([r] ++ raw2).
    rewrite ProcessFacts.process_rows_app. f_equal. f_equal.
    unfold ProcessData.process, ProcessData.populous. simpl.
    destruct (10000 <=? ProcessData.population r); reflexivity.
Qed.

(** C7 as stated fails: the header of the file written for the sample
    table is [city_state,lat,lng], not [label,latitude,longitude]. *)
Lemma catalog_header_is_not_label_latitude_longitude :
  List.hd ""%string (ProcessData.catalog_file Demo.float_str Demo.raw)
  = "city_state,lat,lng"%string
  /\ List.hd ""%string (ProcessData.catalog_file Demo.float_str Demo.raw)
     <> "label,latitude,longitude"%string.
Proof. split; [reflexivity | vm_compute; discriminate]. Qed.

(** C8.  Whenever [apiresponse] yields a response, the coordinate text is
    made of the latitude and longitude of that response, rounded to four
    decimals, and the map is centred, with its one marker, on the latitude
    and longitude of that response; neither output reads the catalog
    coordinate that went into the request. *)
Theorem coordinate_outputs_use_response
        (weather_api : Params -> outcome (list Response))
        (float_str : Q -> string) (df : list Catalog.CityRow)
        (s : Session) (response : Response) :
  fst (apiresponse weather_api df s) = Ok response ->
  fst (text weather_api float_str df s)
  = Ok (float_str (round_ndigits (Latitude response) 4) ++ "°N, "
        ++ float_str (round_ndigits (Longitude response) 4) ++ "°E")%string
  /\ fst (map_widget weather_api df s)
     = Ok {| center := (Latitude response, Longitude response);
             zoom := 12;
             markers := [(Latitude response, Longitude response)] |}
  /\ (forall weather_api' df' s' response',
         fst (apiresponse weather_api' df' s') = Ok response' ->
         Latitude response' = Latitude response ->
         Longitude response' = Longitude response ->
         fst (text weather_api' float_str df' s') = fst (text weather_api float_str df s)
         /\ fst (map_widget weather_api' df' s') = fst (map_widget weather_api df s)).
Proof.
  intros Hr. unfold text, map_widget.
  destruct (apiresponse weather_api df s) as [r s1]. simpl in Hr. subst r. simpl.
  split; [reflexivity|]. split; [reflexivity|].
  intros weather_api' df' s' response' Hr' Hlat Hlng.
  destruct (apiresponse weather_api' df' s') as [r' s1']. simpl in Hr'. subst r'. simpl.
  unfold text_body, map_body. rewrite Hlat, Hlng. split; reflexivity.
Qed.

Lemma coordinate_outputs_use_response_witness :
  map latitude (fetches (snd (apiresponse Demo.weather_api Demo.df (start Demo.inputs0))))
  = [(401106 # 10000)%Q]
  /\ fst (text Demo.weather_api Demo.float_str Demo.df (start Demo.inputs0))
     = Ok "40.1054°N, -88.2090°E"%string
  /\ fst (map_widget Demo.weather_api Demo.df (start Demo.inputs0))
     = Ok {| center := (40105446 # 1000000, - 88209030 # 1000000)%Q;
             zoom := 12;
             markers := [(40105446 # 1000000, - 88209030 # 1000000)%Q] |}.
Proof.
  split; [reflexivity|].
  destruct (coordinate_outputs_use_response
              Demo.weather_api Demo.float_str Demo.df (start Demo.inputs0)
              Demo.response8 eq_refl) as (Ht & Hm & _).
  split.
  - rewrite Ht. reflexivity.
  - rewrite Hm. reflexivity.
Defined.

Module DerivedFacts.
Import SeriesSpec.

(** The rolling mean of window [w] at index [i]: absent before index
    [w - 1], then the mean of the [w] values ending at [i]. *)
Lemma rolling_mean_trailing (w : nat) (temps : list cell) (i : nat) :
  (0 < w)%nat -> (i < length temps)%nat ->
  ((i < w - 1)%nat -> rolling_mean w temps !! i = Some None)
  /\ ((w - 1 <= i)%nat ->
      exists m, rolling_mean w temps !! i = Some m
                /\ cell_eq m (mean (take w (drop (i - (w - 1)) temps)))).
Proof.
  intros Hw Hi.
  destruct (RollingFacts.rolling_mean_lookup w temps i Hw Hi) as (c & Hc & Heq).
  unfold trailing_avg, window in Heq. split.
  - intros Hearly.
    replace (i <? w - 1)%nat with true in Heq by (symmetry; apply Nat.ltb_lt; lia).
    destruct c; [destruct Heq | exact Hc].
  - intros Hlate.
    replace (i <? w - 1)%nat with false in Heq by (symmetry; apply Nat.ltb_ge; lia).
    replace (i + 1 - w)%nat with (i - (w - 1))%nat in Heq by lia.
    exists c. split; assumption.
Qed.

End DerivedFacts.

(** C2.  For every series, the weekly column that [plot] derives is absent
    (NaN) at the indices 0..5 and, at every index [i >= 6], is the
    arithmetic mean of the minimum temperatures at the indices [i-6]
    through [i]; the monthly column is absent at the indices 0..28 and, at
    every index [i >= 29], is the mean over the indices [i-29] through
    [i]. *)
Theorem rolling_averages_are_trailing_means
        (inp : Inputs) (l : loc) (h : Heap) (frame : DataFrame) (temps : list cell) :
  h !! l = Some frame ->
  num_col frame "temperature_2m_min" = Ok temps ->
  exists frame' weekly monthly,
    snd (plot_body inp l h) !! l = Some frame'
    /\ num_col frame' "weekrollingavg" = Ok weekly
    /\ num_col frame' "monthrollingavg" = Ok monthly
    /\ length weekly = length temps
    /\ length monthly = length temps
    /\ forall i : nat, (i < length temps)%nat ->
       ((i < 6)%nat -> weekly !! i = Some None)
       /\ ((6 <= i)%nat ->
           exists m, weekly !! i = Some m
                     /\ SeriesSpec.cell_eq m (SeriesSpec.mean (take 7 (drop (i - 6) temps))))
       /\ ((i < 29)%nat -> monthly !! i = Some None)
       /\ ((29 <= i)%nat ->
           exists m, monthly !! i = Some m
                     /\ SeriesSpec.cell_eq m (SeriesSpec.mean (take 30 (drop (i - 29) temps)))).
Proof.
  intros Hl Ht.
  assert (l < length h)%nat as Hlt by (eapply lookup_lt_Some; eassumption).
  rewrite (PlotFacts.plot_body_run inp l h frame temps Hl Ht). simpl.
  eexists _, (rolling_mean 7 temps), (rolling_mean 30 temps).
  split; [unfold Heap, loc in *; apply list_lookup_insert_eq; exact Hlt|].
  split; [rewrite PlotFacts.num_col_setitem_ne by discriminate;
          apply PlotFacts.num_col_setitem_eq|].
  split; [apply PlotFacts.num_col_setitem_eq|].
  split; [apply RollingFacts.rolling_mean_length|].
  split; [apply RollingFacts.rolling_mean_length|].
  intros i Hi.
  destruct (DerivedFacts.rolling_mean_trailing 7 temps i ltac:(lia) Hi) as [Hw1 Hw2].
  destruct (DerivedFacts.rolling_mean_trailing 30 temps i ltac:(lia) Hi) as [Hm1 Hm2].
  simpl in Hw1, Hw2, Hm1, Hm2. repeat split; assumption.
Qed.

Lemma rolling_averages_are_trailing_means_witness :
  exists frame' weekly monthly,
    snd (plot_body Demo.inputs0 0%nat [Demo.frame8]) !! 0%nat = Some frame'
    /\ num_col frame' "weekrollingavg" = Ok weekly
    /\ num_col frame' "monthrollingavg" = Ok monthly
    /\ weekly = [None; None; None; None; None; None; Some (28 # 7)%Q; Some (35 # 7)%Q]
    /\ monthly = [None; None; None; None; None; None; None; None].
Proof.
  destruct (rolling_averages_are_trailing_means
              Demo.inputs0 0%nat [Demo.frame8] Demo.frame8 Demo.temps8 eq_refl eq_refl)
    as (frame' & weekly & monthly & Hf & Hw & Hm & _).
  exists frame', weekly, monthly.
  split; [exact Hf|]. split; [exact Hw|]. split; [exact Hm|].
  vm_compute in Hf. injection Hf as <-.
  vm_compute in Hw. injection Hw as <-.
  vm_compute in Hm. injection Hm as <-.
  split; reflexivity.
Defined.

(** C6, as the program has it.  Rendering the plot assigns the columns
    [weekrollingavg] and [monthrollingavg] to the frame that [filter_df]
    cached, in place, and changes nothing else: the frame keeps its number
    of rows and every other column, among them [date] and
    [temperature_2m_min]; every other object is untouched; and the summary
    table computed from the frame is the same before and after. *)
Theorem plot_assigns_only_rolling_columns
        (inp : Inputs) (l : loc) (h : Heap) (frame : DataFrame) (temps : list cell) :
  h !! l = Some frame ->
  num_col frame "temperature_2m_min" = Ok temps ->
  exists frame',
    snd (plot_body inp l h) !! l = Some frame'
    /\ getitem frame' "weekrollingavg" = Ok (NumCol (rolling_mean 7 temps))
    /\ getitem frame' "monthrollingavg" = Ok (NumCol (rolling_mean 30 temps))
    /\ nrows frame' = nrows frame
    /\ (forall name, name <> "weekrollingavg"%string -> name <> "monthrollingavg"%string ->
        getitem frame' name = getitem frame name)
    /\ (forall l' : loc, l' <> l -> snd (plot_body inp l h) !! l' = h !! l')
    /\ (forall range, hist_table_body frame' range = hist_table_body frame range).
Proof.
  intros Hl Ht.
  assert (l < length h)%nat as Hlt by (eapply lookup_lt_Some; eassumption).
  rewrite (PlotFacts.plot_body_run inp l h frame temps Hl Ht). simpl.
  eexists. unfold Heap, loc in *.
  split; [apply list_lookup_insert_eq; exact Hlt|].
  split; [rewrite FrameFacts.getitem_setitem_ne by discriminate;
          apply FrameFacts.getitem_setitem_eq|].
  split; [apply FrameFacts.getitem_setitem_eq|].
  split; [reflexivity|].
  split; [|split].
  - intros name Hw Hm.
    rewrite !FrameFacts.getitem_setitem_ne by congruence. reflexivity.
  - intros l' Hne. apply list_lookup_insert_ne. congruence.
  - intros [low high]. unfold hist_table_body. simpl.
    rewrite (TableFacts.days_below_loop_ok frame temps _ Ht).
    rewrite (TableFacts.days_below_loop_ok _ temps); [reflexivity|].
    rewrite !PlotFacts.num_col_setitem_ne by discriminate. exact Ht.
Qed.

Lemma plot_assigns_only_rolling_columns_witness :
  exists frame',
    snd (plot_body Demo.inputs0 0%nat [Demo.frame8]) !! 0%nat = Some frame'
    /\ getitem frame' "temperature_2m_min" = Ok (NumCol Demo.temps8)
    /\ map fst (cols frame')
       = ["date"; "temperature_2m_min"; "weekrollingavg"; "monthrollingavg"]%string.
Proof.
  destruct (plot_assigns_only_rolling_columns
              Demo.inputs0 0%nat [Demo.frame8] Demo.frame8 Demo.temps8 eq_refl eq_refl)
    as (frame' & Hf & _ & _ & _ & Hsame & _).
  exists frame'. split; [exact Hf|]. split.
  - rewrite Hsame by discriminate. reflexivity.
  - vm_compute in Hf. injection Hf as <-. reflexivity.
Defined.

(** C6 as stated fails: once the table was shown, so that [filter_df]
    holds its frame at reference 0, rendering the plot leaves another
    frame at that reference; the table, rendered next, is given a frame of
    four columns where it was given one of two. *)
Lemma plot_render_changes_cached_frame :
  df_cache Demo.session_with_table = Some (Ok 0%nat)
  /\ df_cache (perform Demo.weather_api Demo.float_str Demo.df RenderPlot
                       Demo.session_with_table) = Some (Ok 0%nat)
  /\ heap Demo.session_with_table !! 0%nat = Some Demo.frame8
  /\ heap (perform Demo.weather_api Demo.float_str Demo.df RenderPlot
                   Demo.session_with_table) !! 0%nat
     <> heap Demo.session_with_table !! 0%nat
  /\ (forall frame',
         heap (perform Demo.weather_api Demo.float_str Demo.df RenderPlot
                       Demo.session_with_table) !! 0%nat = Some frame' ->
         length (cols frame') = 4%nat /\ length (cols Demo.frame8) = 2%nat).
Proof.
  split; [reflexivity|]. split; [reflexivity|]. split; [reflexivity|]. split.
  - vm_compute. discriminate.
  - intros frame' H. vm_compute in H. injection H as <-. split; reflexivity.
Qed.

Module SessionFacts.
Import SessionInv.

Lemma reads_app tr1 tr2 : reads (tr1 ++ tr2) = reads tr1 ++ reads tr2.
Proof. unfold reads. apply flat_map_app. Qed.

Lemma requests_app tr1 tr2 : requests (tr1 ++ tr2) = requests tr1 ++ requests tr2.
Proof. unfold requests. apply flat_map_app. Qed.

Section Reads.
Variable P : InputId -> Prop.

Lemma only_reads_ret {A} (a : A) : only_reads P (ret a).
Proof. intros inp. constructor. Qed.

Lemma only_reads_lift {A} (o : outcome A) : only_reads P (lift o).
Proof. intros inp. constructor. Qed.

Lemma only_reads_rbind {A B} (m : R A) (k : A -> R B) :
  only_reads P m -> (forall a, only_reads P (k a)) -> only_reads P (rbind m k).
Proof.
  intros Hm Hk inp. unfold rbind. specialize (Hm inp).
  destruct (m inp) as [tr [a|e]]; simpl in *; [|exact Hm].
  specialize (Hk a inp). destruct (k a inp) as [tr' b]. simpl in *.
  rewrite reads_app. apply Forall_app. split; assumption.
Qed.

Lemma only_reads_req s : only_reads P (req s).
Proof. unfold req. destruct (String.eqb s ""); [apply only_reads_lift | apply only_reads_ret]. Qed.

Lemma only_reads_call weather_api p : only_reads P (call_weather_api weather_api p).
Proof. intros inp. constructor. Qed.

Lemma only_reads_city : P IdCity -> only_reads P input_city.
Proof. intros H inp. repeat constructor. exact H. Qed.

Lemma only_reads_daterange : P IdDaterange -> only_reads P input_daterange.
Proof. intros H inp. repeat constructor. exact H. Qed.

Lemma only_reads_tempunits : P IdTempunits -> only_reads P input_tempunits.
Proof. intros H inp. repeat constructor. exact H. Qed.
End Reads.

Lemma fetch_determined_ret {A} (a : A) : fetch_determined (ret a).
Proof. intros i1 i2 _. reflexivity. Qed.

Lemma fetch_determined_lift {A} (o : outcome A) : fetch_determined (lift o).
Proof. intros i1 i2 _. reflexivity. Qed.

Lemma fetch_determined_rbind {A B} (m : R A) (k : A -> R B) :
  fetch_determined m -> (forall a, fetch_determined (k a)) ->
  fetch_determined (rbind m k).
Proof.
  intros Hm Hk i1 i2 Hi. unfold rbind. rewrite (Hm i1 i2 Hi).
  destruct (m i2) as [tr [a|e]]; [|reflexivity].
  rewrite (Hk a i1 i2 Hi). reflexivity.
Qed.

Lemma fetch_determined_req s : fetch_determined (req s).
Proof.
  unfold req. destruct (String.eqb s "");
    [apply fetch_determined_lift | apply fetch_determined_ret].
Qed.

Lemma fetch_determined_call weather_api p :
  fetch_determined (call_weather_api weather_api p).
Proof. intros i1 i2 _. reflexivity. Qed.

Lemma fetch_determined_city : fetch_determined input_city.
Proof. intros i1 i2 (Hc & _ & _). unfold input_city. rewrite Hc. reflexivity. Qed.

Lemma fetch_determined_daterange : fetch_determined input_daterange.
Proof. intros i1 i2 (_ & Hd & _). unfold input_daterange. rewrite Hd. reflexivity. Qed.

Lemma fetch_determined_tempunits : fetch_determined input_tempunits.
Proof. intros i1 i2 (_ & _ & Hu). unfold input_tempunits. rewrite Hu. reflexivity. Qed.

Create HintDb reactive.
#[local] Hint Resolve only_reads_ret only_reads_lift only_reads_req only_reads_call
  only_reads_city only_reads_daterange only_reads_tempunits
  fetch_determined_ret fetch_determined_lift fetch_determined_req
  fetch_determined_call fetch_determined_city fetch_determined_daterange
  fetch_determined_tempunits : reactive.

Ltac reactive_steps :=
  repeat first
    [ apply only_reads_rbind; [|intros ?]
    | apply fetch_determined_rbind; [|intros ?]
    | solve [auto with reactive] ].

Section Server.
Variable weather_api : Params -> outcome (list Response).
Variable float_str : Q -> string.
Variable df : list Catalog.CityRow.

(** [apiresponse] reads the date range, the city and the units. *)
Lemma apiresponse_body_reads :
  only_reads fetch_input (apiresponse_body weather_api df).
Proof.
  assert (fetch_input IdCity) by (unfold fetch_input; auto).
  assert (fetch_input IdDaterange) by (unfold fetch_input; auto).
  assert (fetch_input IdTempunits) by (unfold fetch_input; auto).
  unfold apiresponse_body. reactive_steps.
Qed.

(** Its trace, requests included, and its result are a function of
    those three inputs. *)
Lemma apiresponse_body_fetch_determined :
  fetch_determined (apiresponse_body weather_api df).
Proof. unfold apiresponse_body. reactive_steps. Qed.

(** [updateslider] reads the units, six times. *)
Lemma updateslider_body_run inp :
  updateslider_body inp
  = (replicate 6 (Read IdTempunits),
     Ok [ UpdatePlotTemp (if String.eqb (tempunits inp) "fahrenheit" then 5 else -15)
                         (if String.eqb (tempunits inp) "fahrenheit" then -15 else -25)
                         (if String.eqb (tempunits inp) "fahrenheit" then 50 else 10);
          UpdateTableTemp
            (if String.eqb (tempunits inp) "fahrenheit" then (0, 15) else (-20, -10))
            (if String.eqb (tempunits inp) "fahrenheit" then -25 else -30)
            (if String.eqb (tempunits inp) "fahrenheit" then 60 else 15) ]).
Proof. reflexivity. Qed.

(** **** The invariant *)

Lemma session_ok_ext s s' :
  api_cache s' = api_cache s -> effect_deps s' = effect_deps s ->
  session_ok s -> session_ok s'.
Proof. intros Ha He [H1 H2]. split; [rewrite Ha; exact H1 | rewrite He; exact H2]. Qed.

Lemma apiresponse_ok s :
  session_ok s -> session_ok (snd (apiresponse weather_api df s)).
Proof.
  intros [Ha He]. unfold apiresponse.
  destruct (api_cache s) as [[deps v]|] eqn:E; simpl; [split; [rewrite E|]; assumption|].
  pose proof (apiresponse_body_reads (inputs s)) as Hr.
  destruct (apiresponse_body weather_api df (inputs s)) as [tr v]. simpl in *.
  split; [|exact He]. intros deps v' [= <- <-]. exact Hr.
Qed.

Lemma filter_df_ok s :
  session_ok s -> session_ok (snd (filter_df weather_api df s)).
Proof.
  intros Hs. unfold filter_df. destruct (df_cache s); [exact Hs|].
  pose proof (apiresponse_ok s Hs) as Hs1.
  destruct (apiresponse weather_api df s) as [r s1]. simpl in Hs1.
  destruct (obind r filter_df_body); simpl;
    (eapply session_ok_ext; [| |exact Hs1]; reflexivity).
Qed.

Lemma invalidate_ok k s : session_ok s -> session_ok (invalidate k s).
Proof.
  intros Hs. unfold invalidate. destruct (api_cache s) as [[deps v]|]; [|exact Hs].
  destruct (bool_decide (k ∈ deps)); [|exact Hs].
  split; [discriminate | apply Hs].
Qed.

Lemma set_input_ok c s : session_ok s -> session_ok (set_input c s).
Proof.
  intros Hs. unfold set_input. destruct (same_value c (inputs s)); [exact Hs|].
  apply invalidate_ok. eapply session_ok_ext; [| |exact Hs]; reflexivity.
Qed.

Lemma apply_msg_ok s m : session_ok s -> session_ok (apply_msg s m).
Proof.
  intros Hs. destruct m; simpl;
    (eapply session_ok_ext; [| |apply set_input_ok, Hs]; reflexivity).
Qed.

Lemma run_effect_ok s :
  (forall deps v, api_cache s = Some (deps, v) -> Forall fetch_input deps) ->
  session_ok (run_effect s).
Proof.
  intros Ha. unfold run_effect. rewrite updateslider_body_run.
  cbn [fold_left]. apply apply_msg_ok, apply_msg_ok.
  split; [exact Ha | reflexivity].
Qed.

Lemma start_ok i0 : session_ok (start i0).
Proof. apply run_effect_ok. discriminate. Qed.

Lemma perform_ok a s :
  session_ok s -> session_ok (perform weather_api float_str df a s).
Proof.
  intros Hs. destruct a as [c| | | |]; simpl.
  - unfold on_change. destruct (_ && _).
    + apply run_effect_ok, set_input_ok, Hs.
    + apply set_input_ok, Hs.
  - unfold text. pose proof (apiresponse_ok s Hs) as H.
    destruct (apiresponse weather_api df s). exact H.
  - unfold map_widget. pose proof (apiresponse_ok s Hs) as H.
    destruct (apiresponse weather_api df s). exact H.
  - unfold hist_table. pose proof (filter_df_ok s Hs) as H.
    destruct (filter_df weather_api df s) as [[l|e] s1]; simpl in *; [|exact H].
    destruct (heap s1 !! l); exact H.
  - unfold plot. pose proof (filter_df_ok s Hs) as H.
    destruct (filter_df weather_api df s) as [[l|e] s1]; simpl in *; [|exact H].
    destruct (plot_body (inputs s1) l (heap s1)). simpl.
    eapply session_ok_ext; [| |exact H]; reflexivity.
Qed.

(** Every session the program reaches satisfies the invariant. *)
Lemma reachable_ok i0 s :
  reachable weather_api float_str df i0 s -> session_ok s.
Proof.
  induction 1 as [|s a _ IH]; [apply start_ok | apply perform_ok, IH].
Qed.

(** **** Inputs that [apiresponse] does not read *)

Lemma with_inputs_same s : with_inputs (inputs s) s = s.
Proof. destruct s. reflexivity. Qed.

Lemma apiresponse_with_inputs inp' s :
  same_fetch_inputs inp' (inputs s) ->
  apiresponse weather_api df (with_inputs inp' s)
  = (fst (apiresponse weather_api df s),
     with_inputs inp' (snd (apiresponse weather_api df s))).
Proof.
  intros Hi. unfold apiresponse. simpl.
  destruct (api_cache s) as [[deps v]|]; [reflexivity|].
  rewrite (apiresponse_body_fetch_determined _ _ Hi).
  destruct (apiresponse_body weather_api df (inputs s)). reflexivity.
Qed.

Lemma filter_df_with_inputs inp' s :
  same_fetch_inputs inp' (inputs s) ->
  filter_df weather_api df (with_inputs inp' s)
  = (fst (filter_df weather_api df s),
     with_inputs inp' (snd (filter_df weather_api df s))).
Proof.
  intros Hi. unfold filter_df. simpl.
  destruct (df_cache s); [reflexivity|].
  rewrite (apiresponse_with_inputs _ _ Hi).
  destruct (apiresponse weather_api df s) as [r s1]. simpl.
  destruct (obind r filter_df_body); reflexivity.
Qed.

(** What [plot] does to the heap does not depend on the inputs. *)
Lemma plot_body_heap inp inp' l h :
  snd (plot_body inp l h) = snd (plot_body inp' l h).
Proof.
  unfold plot_body.
  destruct (assign_rolling "weekrollingavg" 7 l h) as [h1|]; [|reflexivity].
  destruct (assign_rolling "monthrollingavg" 30 l h1) as [h2|]; [|reflexivity].
  destruct (h2 !! l); reflexivity.
Qed.

Lemma perform_with_inputs a inp' s :
  is_render a -> same_fetch_inputs inp' (inputs s) ->
  perform weather_api float_str df a (with_inputs inp' s)
  = with_inputs inp' (perform weather_api float_str df a s).
Proof.
  intros Ha Hi. destruct a as [c| | | |]; [destruct Ha| | | |]; simpl.
  - unfold text. rewrite (apiresponse_with_inputs _ _ Hi).
    destruct (apiresponse weather_api df s). reflexivity.
  - unfold map_widget. rewrite (apiresponse_with_inputs _ _ Hi).
    destruct (apiresponse weather_api df s). reflexivity.
  - unfold hist_table. rewrite (filter_df_with_inputs _ _ Hi).
    destruct (filter_df weather_api df s) as [[l|e] s1]; simpl; [|reflexivity].
    destruct (heap s1 !! l); reflexivity.
  - unfold plot. rewrite (filter_df_with_inputs _ _ Hi).
    destruct (filter_df weather_api df s) as [[l|e] s1]; simpl; [|reflexivity].
    pose proof (plot_body_heap inp' (inputs s1) l (heap s1)) as Hh.
    destruct (plot_body inp' l (heap s1)) as [fig h].
    destruct (plot_body (inputs s1) l (heap s1)) as [fig2 h2].
    simpl in *. subst h2. reflexivity.
Qed.

(** A render on a session whose [apiresponse] holds a value sends no
    request. *)
Lemma render_cached_no_fetch a s :
  is_render a -> is_Some (api_cache s) ->
  fetches (perform weather_api float_str df a s) = fetches s.
Proof.
  intros Ha [[deps v] Hc].
  assert (apiresponse weather_api df s = (v, s)) as Hapi
    by (unfold apiresponse; rewrite Hc; reflexivity).
  assert (fetches (snd (filter_df weather_api df s)) = fetches s) as Hdf.
  { unfold filter_df. destruct (df_cache s); [reflexivity|].
    rewrite Hapi. destruct (obind v filter_df_body); reflexivity. }
  destruct a as [c| | | |]; [destruct Ha| | | |]; simpl.
  - unfold text. rewrite Hapi. reflexivity.
  - unfold map_widget. rewrite Hapi. reflexivity.
  - unfold hist_table.
    destruct (filter_df weather_api df s) as [[l|e] s1]; simpl in *; [|exact Hdf].
    destruct (heap s1 !! l); exact Hdf.
  - unfold plot.
    destruct (filter_df weather_api df s) as [[l|e] s1]; simpl in *; [|exact Hdf].
    destruct (plot_body (inputs s1) l (heap s1)). exact Hdf.
Qed.

(** Moving the plot-threshold slider changes the inputs and nothing
    else of the session. *)
Lemma on_change_plotTemp s v :
  session_ok s ->
  exists inp',
    same_fetch_inputs inp' (inputs s)
    /\ on_change (SetPlotTemp v) s = with_inputs inp' s.
Proof.
  intros [Ha He]. unfold on_change. rewrite He.
  replace (bool_decide (changed_id (SetPlotTemp v) ∈ replicate 6 IdTempunits))
    with false by reflexivity.
  rewrite andb_false_r. unfold set_input.
  destruct (same_value (SetPlotTemp v) (inputs s)).
  - exists (inputs s). split; [repeat split | symmetry; apply with_inputs_same].
  - exists (apply_change (SetPlotTemp v) (inputs s)). split; [repeat split|].
    unfold invalidate. simpl.
    destruct (api_cache s) as [[deps r]|] eqn:E; [|reflexivity].
    destruct (bool_decide (IdPlotTemp ∈ deps)) eqn:B; [|reflexivity].
    exfalso. apply bool_decide_eq_true in B.
    specialize (Ha deps r eq_refl). rewrite Forall_forall in Ha.
    destruct (Ha _ B) as [H|[H|H]]; discriminate.
Qed.

(** **** The slider effect *)

Lemma inputs_invalidate k s : inputs (invalidate k s) = inputs s.
Proof.
  unfold invalidate. destruct (api_cache s) as [[deps v]|]; [|reflexivity].
  destruct (bool_decide (k ∈ deps)); reflexivity.
Qed.

Lemma inputs_set_input c s :
  inputs (set_input c s)
  = if same_value c (inputs s) then inputs s else apply_change c (inputs s).
Proof.
  unfold set_input. destruct (same_value c (inputs s)); [reflexivity|].
  apply inputs_invalidate.
Qed.

Lemma run_effect_sliders s :
  let u := tempunits (inputs s) in
  let i := inputs (run_effect s) in
  tempunits i = u
  /\ plotTemp i
     = {| value := if String.eqb u "fahrenheit" then 5 else -15;
          smin := if String.eqb u "fahrenheit" then -15 else -25;
          smax := if String.eqb u "fahrenheit" then 50 else 10 |}
  /\ tableTemp i
     = {| value := if String.eqb u "fahrenheit" then (0, 15) else (-20, -10);
          smin := if String.eqb u "fahrenheit" then -25 else -30;
          smax := if String.eqb u "fahrenheit" then 60 else 15 |}.
Proof.
  unfold run_effect. rewrite updateslider_body_run. cbn [fold_left apply_msg].
  cbn [inputs with_inputs tempunits plotTemp tableTemp].
  rewrite ?inputs_set_input. cbn [inputs with_inputs].
  rewrite ?inputs_set_input. cbn [inputs].
  repeat match goal with |- context [same_value ?c ?i] => destruct (same_value c i) end;
    repeat split.
Qed.

End Server.

End SessionFacts.

Import SessionInv.

(** C3.  The fetch computation reads the city, the date range and the
    units and nothing else: on two input states that agree on those three
    it sends the same request and yields the same result, and it never
    reads the plot-threshold slider.  So, in every session the program
    reaches, moving that slider sends no request and leaves the cached
    response and frame in place; whatever is rendered next sends exactly
    the requests it would have sent without the move, and none at all
    when the response had been fetched before. *)
Theorem plot_threshold_change_issues_no_fetch
        (weather_api : Params -> outcome (list Response))
        (float_str : Q -> string) (df : list Catalog.CityRow)
        (i0 : Inputs) (s : Session) (v : Z) :
  reachable weather_api float_str df i0 s ->
  (forall i1 i2,
      city i1 = city i2 -> daterange i1 = daterange i2 -> tempunits i1 = tempunits i2 ->
      apiresponse_body weather_api df i1 = apiresponse_body weather_api df i2)
  /\ (forall i, ~ In IdPlotTemp (reads (fst (apiresponse_body weather_api df i))))
  /\ fetches (perform weather_api float_str df (Change (SetPlotTemp v)) s) = fetches s
  /\ api_cache (perform weather_api float_str df (Change (SetPlotTemp v)) s) = api_cache s
  /\ df_cache (perform weather_api float_str df (Change (SetPlotTemp v)) s) = df_cache s
  /\ (forall a, is_render a ->
      fetches (perform weather_api float_str df a
                 (perform weather_api float_str df (Change (SetPlotTemp v)) s))
      = fetches (perform weather_api float_str df a s)
      /\ (is_Some (api_cache s) ->
          fetches (perform weather_api float_str df a
                     (perform weather_api float_str df (Change (SetPlotTemp v)) s))
          = fetches s)).
Proof.
  intros Hreach.
  pose proof (SessionFacts.reachable_ok _ _ _ _ _ Hreach) as Hok.
  split; [|split].
  - intros i1 i2 Hc Hd Hu.
    apply SessionFacts.apiresponse_body_fetch_determined. repeat split; assumption.
  - intros i Hin.
    pose proof (SessionFacts.apiresponse_body_reads weather_api df i) as Hr.
    rewrite Forall_forall in Hr. apply list_elem_of_In in Hin.
    destruct (Hr _ Hin) as [H|[H|H]]; discriminate.
  - cbn [perform].
    destruct (SessionFacts.on_change_plotTemp s v Hok) as (inp' & Hsame & ->).
    split; [reflexivity|]. split; [reflexivity|]. split; [reflexivity|].
    intros a Ha.
    rewrite (SessionFacts.perform_with_inputs weather_api float_str df a inp' s Ha Hsame).
    split; [reflexivity|].
    intros Hc. cbn [fetches with_inputs].
    apply SessionFacts.render_cached_no_fetch; assumption.
Qed.

Lemma plot_threshold_change_issues_no_fetch_witness :
  length (fetches Demo.session_with_table) = 1%nat
  /\ fetches (perform Demo.weather_api Demo.float_str Demo.df RenderPlot
                (perform Demo.weather_api Demo.float_str Demo.df (Change (SetPlotTemp 20))
                   Demo.session_with_table))
     = fetches Demo.session_with_table.
Proof.
  split; [reflexivity|].
  assert (reachable Demo.weather_api Demo.float_str Demo.df Demo.inputs0
                    Demo.session_with_table) as Hreach
    by (apply reach_step, reach_start).
  destruct (plot_threshold_change_issues_no_fetch
              Demo.weather_api Demo.float_str Demo.df Demo.inputs0
              Demo.session_with_table 20 Hreach) as (_ & _ & _ & _ & _ & Hrender).
  apply (Hrender RenderPlot I). eexists. reflexivity.
Defined.

(** C4.  In every session the program reaches, changing the unit input
    resets both sliders whatever their positions were: to Fahrenheit,
    [plotTemp] becomes 5 within [-15, 50] and [tableTemp] becomes [0, 15]
    within [-25, 60]; to Celsius, [plotTemp] becomes -15 within [-25, 10]
    and [tableTemp] becomes [-20, -10] within [-30, 15]. *)
Theorem unit_change_resets_sliders
        (weather_api : Params -> outcome (list Response))
        (float_str : Q -> string) (df : list Catalog.CityRow)
        (i0 : Inputs) (s : Session) (u : string) :
  reachable weather_api float_str df i0 s ->
  u <> tempunits (inputs s) ->
  let s' := perform weather_api float_str df (Change (SetTempunits u)) s in
  tempunits (inputs s') = u
  /\ (u = "fahrenheit"%string ->
      plotTemp (inputs s') = {| value := 5; smin := -15; smax := 50 |}
      /\ tableTemp (inputs s') = {| value := (0, 15); smin := -25; smax := 60 |})
  /\ (u = "celsius"%string ->
      plotTemp (inputs s') = {| value := -15; smin := -25; smax := 10 |}
      /\ tableTemp (inputs s') = {| value := (-20, -10); smin := -30; smax := 15 |}).
Proof.
  intros Hreach Hu s'.
  pose proof (SessionFacts.reachable_ok _ _ _ _ _ Hreach) as [_ He].
  subst s'. cbn [perform]. unfold on_change. rewrite He.
  cbn [same_value changed_id].
  rewrite (bool_decide_eq_false_2 _ Hu).
  replace (bool_decide (IdTempunits ∈ replicate 6 IdTempunits)) with true by reflexivity.
  cbn [negb andb].
  destruct (SessionFacts.run_effect_sliders (set_input (SetTempunits u) s))
    as (Hunit & Hplot & Htable).
  rewrite SessionFacts.inputs_set_input in Hunit, Hplot, Htable.
  cbn [same_value] in Hunit, Hplot, Htable.
  rewrite (bool_decide_eq_false_2 _ Hu) in Hunit, Hplot, Htable.
  cbn [apply_change tempunits] in Hunit, Hplot, Htable.
  split; [exact Hunit|]. split.
  - intros ->. rewrite Hplot, Htable. split; reflexivity.
  - intros ->. rewrite Hplot, Htable. split; reflexivity.
Qed.

Lemma unit_change_resets_sliders_witness :
  let moved :=
    perform Demo.weather_api Demo.float_str Demo.df (Change (SetTableTemp (40, 55)))
      (perform Demo.weather_api Demo.float_str Demo.df (Change (SetPlotTemp 42))
         (start Demo.inputs0)) in
  value (plotTemp (inputs moved)) = 42
  /\ plotTemp (inputs (perform Demo.weather_api Demo.float_str Demo.df
                         (Change (SetTempunits "celsius")) moved))
     = {| value := -15; smin := -25; smax := 10 |}
  /\ tableTemp (inputs (perform Demo.weather_api Demo.float_str Demo.df
                          (Change (SetTempunits "celsius")) moved))
     = {| value := (-20, -10); smin := -30; smax := 15 |}.
Proof.
  intros moved. split; [reflexivity|].
  assert (reachable Demo.weather_api Demo.float_str Demo.df Demo.inputs0 moved) as Hreach
    by (apply reach_step, reach_step, reach_start).
  assert ("celsius"%string <> tempunits (inputs moved)) as Hu by discriminate.
  destruct (unit_change_resets_sliders
              Demo.weather_api Demo.float_str Demo.df Demo.inputs0 moved "celsius"
              Hreach Hu) as (_ & _ & Hc).
  exact (Hc eq_refl).
Defined.

(** * Further properties of the program *)

Module TableOrder.

Lemma filter_length_mono {A} (p q : A -> bool) (l : list A) :
  (forall x, p x = true -> q x = true) ->
  (length (List.filter p l) <= length (List.filter q l))%nat.
Proof.
  intros Hpq. induction l as [|x l IH]; simpl; [lia|].
  destruct (p x) eqn:Hp.
  - rewrite (Hpq x Hp). simpl. lia.
  - destruct (q x); simpl; lia.
Qed.

Lemma cell_ltb_mono x (t1 t2 : Z) :
  t1 <= t2 -> cell_ltb x t1 = true -> cell_ltb x t2 = true.
Proof.
  intros Ht. rewrite !TableFacts.cell_ltb_spec.
  intros (q & Hx & Hq). exists q. split; [exact Hx|].
  eapply Qlt_le_trans; [exact Hq|]. rewrite <- Zle_Qle. exact Ht.
Qed.

Lemma count_lt_mono temps (t1 t2 : Z) :
  t1 <= t2 -> count_lt temps t1 <= count_lt temps t2.
Proof.
  intros Ht. unfold count_lt. apply inj_le, filter_length_mono.
  intros x. apply cell_ltb_mono, Ht.
Qed.

End TableOrder.

(** X1.  Down the summary table the temperature falls and the days-below
    count never rises: a row further down has a lower threshold and counts
    at most as many days. *)
Theorem hist_table_days_below_monotone
        (histdf : DataFrame) (temps : list cell) (range : Z * Z) (t : TableFrame)
        (i j : nat) (ri rj : ThresholdRow) :
  num_col histdf "temperature_2m_min" = Ok temps ->
  hist_table_body histdf range = Ok t ->
  (i < j)%nat ->
  table_rows t !! i = Some ri ->
  table_rows t !! j = Some rj ->
  temperature rj < temperature ri /\ days_below rj <= days_below ri.
Proof.
  intros Hc Ht Hij Hi Hj. destruct range as [low high].
  destruct (TableFacts.hist_table_body_rows histdf temps low high Hc) as (t' & Ht' & Hrows).
  rewrite Ht in Ht'. injection Ht' as <-. rewrite Hrows in Hi, Hj.
  rewrite list_lookup_fmap in Hi, Hj.
  destruct (arange_down high (low - 1) !! i) as [ti|] eqn:Ei; [|discriminate].
  destruct (arange_down high (low - 1) !! j) as [tj|] eqn:Ej; [|discriminate].
  injection Hi as <-. injection Hj as <-.
  assert (j < Z.to_nat (high - (low - 1)))%nat as Hjn
    by (rewrite <- TableFacts.arange_down_length; eapply lookup_lt_Some; exact Ej).
  rewrite TableFacts.arange_down_lookup in Ei, Ej by lia.
  injection Ei as <-. injection Ej as <-. simpl.
  split; [lia | apply TableOrder.count_lt_mono; lia].
Qed.

Lemma hist_table_days_below_monotone_witness :
  exists t ri rj,
    hist_table_body Demo.frame8 (3, 5) = Ok t
    /\ table_rows t !! 0%nat = Some ri
    /\ table_rows t !! 2%nat = Some rj
    /\ temperature rj < temperature ri
    /\ days_below rj <= days_below ri.
Proof.
  eexists _, _, _.
  split; [reflexivity|]. split; [reflexivity|]. split; [reflexivity|].
  apply (hist_table_days_below_monotone Demo.frame8 Demo.temps8 (3, 5) _ 0 2 _ _
           eq_refl eq_refl ltac:(lia) eq_refl eq_refl).
Defined.

(** X2.  A table range whose upper end is below its lower end gives a
    table without rows, and no error, whatever the frame holds. *)
Theorem hist_table_reversed_range_is_empty (histdf : DataFrame) (low high : Z) :
  high < low ->
  hist_table_body histdf (low, high)
  = Ok {| Temp := []; Days_Below := []; Proportion_Below := [] |}.
Proof.
  intros Hlt. unfold hist_table_body, arange_down. simpl.
  replace (Z.to_nat (high - (low - 1))) with 0%nat by lia. reflexivity.
Qed.

Lemma hist_table_reversed_range_is_empty_witness :
  hist_table_body Demo.frame8 (5, 3)
  = Ok {| Temp := []; Days_Below := []; Proportion_Below := [] |}.
Proof. apply hist_table_reversed_range_is_empty. lia. Defined.

Module FigureFacts.
Import RollInv.

Lemma cell_geb_spec x (t : Z) :
  cell_geb x t = true <-> exists q, x = Some q /\ (inject_Z t <= q)%Q.
Proof.
  unfold cell_geb. destruct x as [q|].
  - destruct (Qlt_le_dec q (inject_Z t)) as [Hlt|Hge]; split.
    + discriminate.
    + intros (q' & [= <-] & Hge). exfalso. eapply Qlt_not_le; eassumption.
    + intros _. exists q. split; [reflexivity | exact Hge].
    + reflexivity.
  - split; [discriminate | intros (q & [=] & _)].
Qed.

Lemma points_In keep dates temps p :
  In p (points keep dates temps) <-> In p (combine dates temps) /\ keep (snd p) = true.
Proof. unfold points. apply filter_In. Qed.

(** Every point with a temperature is on exactly one side. *)
Lemma points_split_length (thr : Z) (pts : list (Z * cell)) :
  (length (List.filter (fun p => cell_geb (snd p) thr) pts)
   + length (List.filter (fun p => cell_ltb (snd p) thr) pts)
   = length (List.filter (fun p => is_valid (snd p)) pts))%nat.
Proof.
  induction pts as [|[d [q|]] pts IH]; simpl; [reflexivity| |exact IH].
  destruct (Qlt_le_dec q (inject_Z thr)); simpl; lia.
Qed.

Lemma date_col_setitem_ne frame name c :
  name <> "date"%string -> date_col (setitem frame name c) = date_col frame.
Proof.
  intros Hne. unfold date_col.
  rewrite FrameFacts.getitem_setitem_ne by assumption. reflexivity.
Qed.

Lemma set_col_id name c cs : get_col name cs = Some c -> set_col name c cs = cs.
Proof.
  induction cs as [|[n c0] cs IH]; simpl; [discriminate|].
  destruct (String.eqb n name) eqn:E.
  - intros [= ->]. apply String.eqb_eq in E. subst n. reflexivity.
  - intros H. rewrite (IH H). reflexivity.
Qed.

Lemma setitem_id frame name c :
  getitem frame name = Ok c -> setitem frame name c = frame.
Proof.
  unfold getitem, setitem. destruct (get_col name (cols frame)) as [c'|] eqn:E; [|discriminate].
  intros [= ->]. rewrite (set_col_id _ _ _ E). destruct frame. reflexivity.
Qed.

End FigureFacts.

(** X3.  What the plot draws.  The horizontal line is at the slider value;
    the dark points are exactly the days whose temperature is at or above
    it and the light points exactly the days strictly below it, so a day
    without a value (NaN) is drawn in neither colour and no day in both;
    the weekly and monthly lines are drawn exactly when selected, over the
    dates and the rolling averages of the frame. *)
Theorem plot_figure_partitions_points
        (inp : Inputs) (l : loc) (h : Heap) (frame : DataFrame)
        (dates : list Z) (temps : list cell) :
  h !! l = Some frame ->
  date_col frame = Ok dates ->
  num_col frame "temperature_2m_min" = Ok temps ->
  exists fig,
    fst (plot_body inp l h) = Ok fig
    /\ hline fig = value (plotTemp inp)
    /\ (forall p, In p (upper fig)
                  <-> In p (combine dates temps)
                      /\ exists q, snd p = Some q /\ (inject_Z (hline fig) <= q)%Q)
    /\ (forall p, In p (lower fig)
                  <-> In p (combine dates temps)
                      /\ exists q, snd p = Some q /\ (q < inject_Z (hline fig))%Q)
    /\ (length (upper fig) + length (lower fig)
        = length (List.filter (fun p => RollInv.is_valid (snd p)) (combine dates temps)))%nat
    /\ weekly_line fig
       = (if existsb (String.eqb "weekly") (plotOptions inp)
          then Some (dates, rolling_mean 7 temps) else None)
    /\ monthly_line fig
       = (if existsb (String.eqb "monthly") (plotOptions inp)
          then Some (dates, rolling_mean 30 temps) else None).
Proof.
  intros Hl Hd Ht.
  rewrite (PlotFacts.plot_body_run inp l h frame temps Hl Ht). cbn [fst].
  unfold draw.
  rewrite !FigureFacts.date_col_setitem_ne by discriminate. rewrite Hd. cbn [obind].
  rewrite !PlotFacts.num_col_setitem_ne by discriminate. rewrite Ht. cbn [obind].
  rewrite !PlotFacts.num_col_setitem_eq.
  destruct (existsb (String.eqb "weekly") (plotOptions inp));
    destruct (existsb (String.eqb "monthly") (plotOptions inp)); cbn [obind];
    (eexists; split; [reflexivity|]; cbn [hline upper lower weekly_line monthly_line];
     split; [reflexivity|];
     split; [intros p; rewrite FigureFacts.points_In, FigureFacts.cell_geb_spec; reflexivity|];
     split; [intros p; rewrite FigureFacts.points_In, TableFacts.cell_ltb_spec; reflexivity|];
     split; [apply FigureFacts.points_split_length|];
     split; reflexivity).
Qed.

Lemma plot_figure_partitions_points_witness :
  exists fig,
    fst (plot_body Demo.inputs0 0%nat [Demo.frame8]) = Ok fig
    /\ map snd (upper fig) = [Some 5; Some 6; Some 7; Some 8]%Q
    /\ map snd (lower fig) = [Some 1; Some 2; Some 3; Some 4]%Q.
Proof.
  destruct (plot_figure_partitions_points Demo.inputs0 0%nat [Demo.frame8] Demo.frame8
              (date_range_left 1640995200 (1640995200 + 8 * 86400) 86400) Demo.temps8
              eq_refl eq_refl eq_refl) as (fig & Hfig & _).
  exists fig. split; [exact Hfig|].
  vm_compute in Hfig. injection Hfig as <-. split; reflexivity.
Defined.

(** X4.  Rendering the plot again changes nothing more: the second
    render assigns the same two columns over themselves, so the shared
    frame, and the whole heap, are as the first render left them. *)
Theorem plot_second_render_keeps_heap
        (inp inp' : Inputs) (l : loc) (h : Heap) (frame : DataFrame) (temps : list cell) :
  h !! l = Some frame ->
  num_col frame "temperature_2m_min" = Ok temps ->
  snd (plot_body inp' l (snd (plot_body inp l h))) = snd (plot_body inp l h).
Proof.
  intros Hl Ht.
  assert (l < length h)%nat as Hlt by (eapply lookup_lt_Some; eassumption).
  rewrite (PlotFacts.plot_body_run inp l h frame temps Hl Ht). cbn [snd].
  set (frame' := setitem (setitem frame "weekrollingavg" _) "monthrollingavg" _).
  assert (num_col frame' "temperature_2m_min" = Ok temps) as Ht'
    by (subst frame'; rewrite !PlotFacts.num_col_setitem_ne by discriminate; exact Ht).
  assert ((<[l := frame']> h : Heap) !! l = Some frame') as Hl'
    by (unfold Heap, loc in *; apply list_lookup_insert_eq; exact Hlt).
  rewrite (PlotFacts.plot_body_run inp' l _ frame' temps Hl' Ht'). cbn [snd].
  rewrite (FigureFacts.setitem_id frame' "weekrollingavg").
  - rewrite (FigureFacts.setitem_id frame' "monthrollingavg").
    + unfold Heap, loc in *. apply list_insert_insert_eq.
    + subst frame'. apply FrameFacts.getitem_setitem_eq.
  - subst frame'. rewrite FrameFacts.getitem_setitem_ne by discriminate.
    apply FrameFacts.getitem_setitem_eq.
Qed.

Lemma plot_second_render_keeps_heap_witness :
  snd (plot_body Demo.inputs0 0%nat (snd (plot_body Demo.inputs0 0%nat [Demo.frame8])))
  = snd (plot_body Demo.inputs0 0%nat [Demo.frame8]).
Proof.
  exact (plot_second_render_keeps_heap Demo.inputs0 Demo.inputs0 0%nat [Demo.frame8]
           Demo.frame8 Demo.temps8 eq_refl eq_refl).
Defined.

Module NanFacts.
Import SeriesSpec.

Lemma total_with_nan l : In None l -> total l = None.
Proof.
  induction l as [|[v|] l IH]; simpl; intros H.
  - destruct H.
  - destruct H as [H|H]; [discriminate|]. rewrite (IH H). reflexivity.
  - reflexivity.
Qed.

Lemma window_holds (w : nat) (temps : list cell) (i j : nat) (x : cell) :
  temps !! j = Some x -> (j <= i)%nat -> (i < j + w)%nat ->
  In x (window w temps i).
Proof.
  intros Hj Hji Hiw. unfold window.
  apply list_elem_of_In, list_elem_of_lookup.
  exists (j - (i + 1 - w))%nat.
  rewrite lookup_take_lt by lia. rewrite lookup_drop.
  replace (i + 1 - w + (j - (i + 1 - w)))%nat with j by lia. exact Hj.
Qed.

End NanFacts.

(** X5.  A day without a value blanks the rolling average of its own
    index and of the [w - 1] following ones: at each of them the column
    computed by [rolling(window = w).mean()] is NaN. *)
Theorem rolling_mean_nan_blanks_window (w : nat) (temps : list cell) (i j : nat) :
  (0 < w)%nat ->
  temps !! j = Some None ->
  (j <= i)%nat -> (i < j + w)%nat -> (i < length temps)%nat ->
  rolling_mean w temps !! i = Some None.
Proof.
  intros Hw Hj Hji Hiw Hi.
  destruct (RollingFacts.rolling_mean_lookup w temps i Hw Hi) as (c & Hc & Heq).
  unfold SeriesSpec.trailing_avg, SeriesSpec.mean in Heq.
  rewrite (NanFacts.total_with_nan _ (NanFacts.window_holds w temps i j None Hj Hji Hiw)) in Heq.
  destruct (i <? w - 1)%nat; destruct c; [destruct Heq | exact Hc | destruct Heq | exact Hc].
Qed.

Lemma rolling_mean_nan_blanks_window_witness :
  rolling_mean 2 [Some 1; None; Some 3; Some 5]%Q !! 2%nat = Some None
  /\ rolling_mean 2 [Some 1; None; Some 3; Some 5]%Q !! 3%nat = Some (Some (8 # 2)%Q).
Proof.
  split; [|reflexivity].
  apply (rolling_mean_nan_blanks_window 2 _ 2 1); [lia | reflexivity | lia | lia | simpl; lia].
Defined.

Module DateFacts.

Lemma lt_ceil_div (k d f : Z) :
  0 < f -> (k < (d + f - 1) / f <-> k * f < d).
Proof.
  intros Hf. split.
  - intros Hk.
    assert (k + 1 <= (d + f - 1) / f) as Hk1 by lia.
    pose proof (Z.mul_div_le (d + f - 1) f Hf) as Hdiv. nia.
  - intros Hk.
    assert (k + 1 <= (d + f - 1) / f); [|lia].
    apply Z.div_le_lower_bound; [exact Hf | nia].
Qed.

(** The instants of a left-closed range: the grid points from [start]
    on that lie strictly before [stop], and [start] itself when the range
    starts and stops at the same instant. *)
Lemma date_range_left_In (start stop : Z) (freq : positive) (t : Z) :
  In t (date_range_left start stop freq)
  <-> exists k : nat,
        t = start + Z.of_nat k * Z.pos freq
        /\ (t < stop \/ (start = stop /\ k = 0%nat)).
Proof.
  unfold date_range_left. destruct (start =? stop) eqn:E.
  - apply Z.eqb_eq in E. subst stop. simpl. split.
    + intros [<-|[]]. exists 0%nat. split; [lia | right; split; reflexivity].
    + intros (k & -> & [Hlt|[_ ->]]); [lia | left; lia].
  - apply Z.eqb_neq in E. rewrite in_map_iff. split.
    + intros (k & <- & Hk). apply in_seq in Hk. exists k. split; [reflexivity|]. left.
      assert (Z.of_nat k < (stop - start + Z.pos freq - 1) / Z.pos freq) as Hlt by lia.
      apply lt_ceil_div in Hlt; lia.
    + intros (k & -> & [Hlt|[Heq _]]); [|congruence].
      exists k. split; [reflexivity|]. apply in_seq.
      assert (Z.of_nat k < (stop - start + Z.pos freq - 1) / Z.pos freq); [|lia].
      apply lt_ceil_div; lia.
Qed.

Lemma date_range_left_lookup (start stop : Z) (freq : positive) (k : nat) (t : Z) :
  date_range_left start stop freq !! k = Some t -> t = start + Z.of_nat k * Z.pos freq.
Proof.
  unfold date_range_left. destruct (start =? stop).
  - destruct k as [|k]; simpl; [intros [= <-]; lia | discriminate].
  - rewrite list_lookup_fmap. intros H.
    destruct (seq 0 _ !! k) as [k'|] eqn:E; [|discriminate].
    apply lookup_seq in E as [-> _]. injection H as <-. reflexivity.
Qed.

End DateFacts.

(** X6.  The frame built by [filter_df].  Its dates are the instants
    [Time + k * Interval], in order, that lie strictly before [TimeEnd]:
    the range is closed on the left and open on the right, except that a
    range with [Time = TimeEnd] has the one date [Time].  The frame is
    built when the response carries exactly one value per date, and then
    holds those dates and those values; with any other number of values,
    as for a response without values whose range starts and ends at the
    same instant, the construction fails with [ValueError]. *)
Theorem filter_df_left_closed_dates (response : Response) :
  let d := Daily response in
  let dates := date_range_left (Time d) (TimeEnd d) (Interval d) in
  (forall t, In t dates
             <-> exists k : nat,
                   t = Time d + Z.of_nat k * Z.pos (Interval d)
                   /\ (t < TimeEnd d \/ (Time d = TimeEnd d /\ k = 0%nat)))
  /\ (forall (k : nat) t, dates !! k = Some t -> t = Time d + Z.of_nat k * Z.pos (Interval d))
  /\ (Time d = TimeEnd d -> dates = [Time d])
  /\ (length (ValuesAsNumpy d) = length dates ->
      exists frame,
        filter_df_body response = Ok frame
        /\ nrows frame = length dates
        /\ date_col frame = Ok dates
        /\ num_col frame "temperature_2m_min" = Ok (ValuesAsNumpy d))
  /\ (length (ValuesAsNumpy d) <> length dates ->
      filter_df_body response = Raise "ValueError").
Proof.
  intros d dates. split; [|split; [|split; [|split]]].
  - intros t. apply DateFacts.date_range_left_In.
  - intros k t. apply DateFacts.date_range_left_lookup.
  - intros E. unfold dates, date_range_left. rewrite E, Z.eqb_refl. reflexivity.
  - intros Hlen. unfold filter_df_body, frame_of_dict. fold d. fold dates.
    cbn [column_len]. rewrite Hlen, Nat.eqb_refl.
    eexists. split; [reflexivity|]. repeat split.
  - intros Hlen. unfold filter_df_body, frame_of_dict. fold d. fold dates.
    cbn [column_len].
    replace (length dates =? length (ValuesAsNumpy d))%nat with false
      by (symmetry; apply Nat.eqb_neq; congruence).
    reflexivity.
Qed.

Lemma filter_df_left_closed_dates_witness :
  (exists frame, filter_df_body Demo.response8 = Ok frame /\ nrows frame = 8%nat)
  /\ ~ In (1640995200 + 8 * 86400)
          (date_range_left 1640995200 (1640995200 + 8 * 86400) 86400)
  /\ filter_df_body Demo.response_instant = Raise "ValueError".
Proof.
  destruct (filter_df_left_closed_dates Demo.response8) as (Hin & _ & _ & Hok & _).
  split; [|split].
  - destruct (Hok eq_refl) as (frame & Hf & Hn & _). exists frame. split; [exact Hf | exact Hn].
  - intros H. apply Hin in H as (k & _ & [Hlt|[Heq _]]); simpl in *; lia.
  - destruct (filter_df_left_closed_dates Demo.response_instant) as (_ & _ & _ & _ & Hbad).
    apply Hbad. simpl. discriminate.
Defined.

(** X7.  What a run of [apiresponse] sends.  With an empty city it stops
    silently after reading the dates and the city, and sends nothing; with
    a city the catalog does not have it fails with [IndexError] and sends
    nothing; otherwise it sends exactly one request, for the coordinate of
    the first catalog row of that city, the two dates and the unit, and
    yields the first response of the answer. *)
Theorem apiresponse_sends_one_request_for_a_known_city
        (weather_api : Params -> outcome (list Response))
        (df : list Catalog.CityRow) (inp : Inputs) :
  (city inp = ""%string ->
   apiresponse_body weather_api df inp
   = ([Read IdDaterange; Read IdDaterange; Read IdCity], Raise "SilentException"))
  /\ (city inp <> ""%string ->
      (forall r, In r df -> Catalog.city_state r <> city inp) ->
      requests (fst (apiresponse_body weather_api df inp)) = []
      /\ snd (apiresponse_body weather_api df inp) = Raise "IndexError")
  /\ (forall pre row post,
         city inp <> ""%string ->
         df = pre ++ row :: post ->
         Catalog.city_state row = city inp ->
         (forall r, In r pre -> Catalog.city_state r <> city inp) ->
         let params :=
           {| latitude := Catalog.lat row;
              longitude := Catalog.lng row;
              start_date := fst (daterange inp);
              end_date := snd (daterange inp);
              daily := "temperature_2m_min";
              temperature_unit := tempunits inp |} in
         requests (fst (apiresponse_body weather_api df inp)) = [params]
         /\ snd (apiresponse_body weather_api df inp) = obind (weather_api params) item0).
Proof.
  split; [|split].
  - intros Hc. unfold apiresponse_body, rbind, input_daterange, input_city, req.
    rewrite Hc. reflexivity.
  - intros Hc Hnone. apply String.eqb_neq in Hc.
    unfold apiresponse_body, rbind, input_daterange, input_city, req, lift, ret.
    rewrite Hc. rewrite (CatalogFacts.lookup_first_missing _ _ _ Hnone). split; reflexivity.
  - intros pre row post Hc -> Hrow Hpre params. apply String.eqb_neq in Hc.
    unfold apiresponse_body, rbind, input_daterange, input_city, input_tempunits,
      req, lift, ret, call_weather_api.
    rewrite Hc. rewrite !(CatalogFacts.lookup_first_found _ _ _ _ _ Hrow Hpre).
    fold params. destruct (weather_api params) as [rs|e]; split; reflexivity.
Qed.

Lemma apiresponse_sends_one_request_for_a_known_city_witness :
  map latitude (requests (fst (apiresponse_body Demo.weather_api Demo.df Demo.inputs0)))
  = [(401106 # 10000)%Q]
  /\ snd (apiresponse_body Demo.weather_api Demo.df Demo.inputs0) = Ok Demo.response8.
Proof.
  destruct (apiresponse_sends_one_request_for_a_known_city
              Demo.weather_api Demo.df Demo.inputs0) as (_ & _ & Hknown).
  destruct (Hknown [] (List.hd (Catalog.Build_CityRow "" 0 0) Demo.df) (List.tl Demo.df)
                   ltac:(discriminate) eq_refl eq_refl ltac:(intros r []))
    as [Hreq Hres].
  split; [rewrite Hreq | rewrite Hres]; reflexivity.
Defined.

Module TrackedFacts.
Import Coherence.

Lemma tracked_ret {A} (a : A) : tracked (ret a).
Proof. intros i1 i2 _. reflexivity. Qed.

Lemma tracked_lift {A} (o : outcome A) : tracked (lift o).
Proof. intros i1 i2 _. reflexivity. Qed.

Lemma tracked_req s : tracked (req s).
Proof. unfold req. destruct (String.eqb s ""); [apply tracked_lift | apply tracked_ret]. Qed.

Lemma tracked_call weather_api p : tracked (call_weather_api weather_api p).
Proof. intros i1 i2 _. reflexivity. Qed.

Lemma tracked_city : tracked input_city.
Proof.
  intros i1 i2 H. unfold input_city.
  rewrite <- (H IdCity (or_introl eq_refl) : city i1 = city i2). reflexivity.
Qed.

Lemma tracked_daterange : tracked input_daterange.
Proof.
  intros i1 i2 H. unfold input_daterange.
  rewrite <- (H IdDaterange (or_introl eq_refl) : daterange i1 = daterange i2). reflexivity.
Qed.

Lemma tracked_tempunits : tracked input_tempunits.
Proof.
  intros i1 i2 H. unfold input_tempunits.
  rewrite <- (H IdTempunits (or_introl eq_refl) : tempunits i1 = tempunits i2). reflexivity.
Qed.

(** Sequencing keeps the property: the second part runs on the result of
    the first, and reads what it reads on top. *)
Lemma tracked_rbind {A B} (m : R A) (k : A -> R B) :
  tracked m -> (forall a, tracked (k a)) -> tracked (rbind m k).
Proof.
  intros Hm Hk i1 i2 H. unfold rbind in *.
  assert (m i2 = m i1) as ->.
  { apply Hm. intros x Hx. apply H.
    destruct (m i1) as [tr [a|e]]; simpl in *; [|exact Hx].
    destruct (k a i1) as [tr' b]. simpl.
    rewrite SessionFacts.reads_app. apply in_or_app. left. exact Hx. }
  destruct (m i1) as [tr [a|e]]; [|reflexivity].
  assert (k a i2 = k a i1) as ->; [|reflexivity].
  apply Hk. intros x Hx. apply H.
  destruct (k a i1) as [tr' b]. simpl in *.
  rewrite SessionFacts.reads_app. apply in_or_app. right. exact Hx.
Qed.

Lemma apiresponse_body_tracked weather_api df :
  tracked (apiresponse_body weather_api df).
Proof.
  unfold apiresponse_body.
  repeat first
    [ apply tracked_rbind; [|intros ?]
    | apply tracked_ret | apply tracked_lift | apply tracked_req | apply tracked_call
    | apply tracked_city | apply tracked_daterange | apply tracked_tempunits ].
Qed.

(** A change of one input leaves every other input as it was. *)
Lemma apply_change_input_eq c i k :
  k <> changed_id c -> input_eq k i (apply_change c i).
Proof. destruct c, k; simpl; intros H; congruence. Qed.

Lemma requests_at_most_one weather_api df i :
  (length (requests (fst (apiresponse_body weather_api df i))) <= 1)%nat.
Proof.
  unfold apiresponse_body, rbind, input_daterange, input_city, input_tempunits,
    req, lift, ret, call_weather_api.
  destruct (String.eqb (city i) ""); simpl; [lia|].
  destruct (lookup_first Catalog.lat (city i) df); simpl; [|lia].
  destruct (lookup_first Catalog.lng (city i) df); simpl; [|lia].
  match goal with |- context [weather_api ?p] => destruct (weather_api p) end; simpl; lia.
Qed.

End TrackedFacts.

Module CoherenceFacts.
Import Coherence.

Lemma same_data_refl frame : same_data frame frame.
Proof. repeat split. Qed.

Lemma same_data_setitem frame frame0 name c :
  name <> "date"%string -> name <> "temperature_2m_min"%string ->
  same_data frame frame0 -> same_data (setitem frame name c) frame0.
Proof.
  intros Hd Ht (Hn & Hdate & Htemp). unfold same_data.
  rewrite !FrameFacts.getitem_setitem_ne by assumption. repeat split; assumption.
Qed.

(** The frame built from a response has its values as temperatures. *)
Lemma filter_df_body_temps response frame0 :
  filter_df_body response = Ok frame0 ->
  getitem frame0 "temperature_2m_min" = Ok (NumCol (ValuesAsNumpy (Daily response))).
Proof.
  unfold filter_df_body, frame_of_dict.
  destruct (Nat.eqb _ _); [|discriminate]. intros [= <-]. reflexivity.
Qed.


Section Server.
Variable weather_api : Params -> outcome (list Response).
Variable float_str : Q -> string.
Variable df : list Catalog.CityRow.

Local Notation "'body'" := (apiresponse_body weather_api df).
Local Notation "'coherent'" := (Coherence.coherent weather_api df).

Lemma coherent_ext s s' :
  api_cache s' = api_cache s -> df_cache s' = df_cache s -> heap s' = heap s ->
  body (inputs s') = body (inputs s) ->
  coherent s -> coherent s'.
Proof.
  intros Ha Hd Hh Hb [H1 H2]. unfold Coherence.coherent, fresh_frame, fresh_response in *.
  rewrite Ha, Hd, Hh, Hb. split; assumption.
Qed.

Lemma coherent_empty s :
  api_cache s = None -> df_cache s = None -> coherent s.
Proof. intros Ha Hd. split; [rewrite Ha | rewrite Hd]; discriminate. Qed.

Lemma coherent_no_frame_without_response s :
  coherent s -> api_cache s = None -> df_cache s = None.
Proof.
  intros [_ H2] Ha. destruct (df_cache s) as [v|] eqn:E; [|reflexivity].
  destruct (H2 v eq_refl) as [[x Hx] _]. congruence.
Qed.

(** A change of an input that the cached run did not read leaves the run
    as it was. *)
Lemma set_input_coherent c s : coherent s -> coherent (set_input c s).
Proof.
  intros Hs. unfold set_input. destruct (same_value c (inputs s)); [exact Hs|].
  unfold invalidate. cbn [api_cache with_inputs inputs df_cache heap fetches effect_deps].
  destruct (api_cache s) as [[deps v]|] eqn:Ea.
  - destruct (bool_decide (changed_id c ∈ deps)) eqn:Eb.
    + apply coherent_empty; reflexivity.
    + apply bool_decide_eq_false in Eb.
      apply (coherent_ext s); try reflexivity; [|exact Hs].
      destruct Hs as [H1 _]. destruct (H1 deps v Ea) as [Hdeps _].
      apply TrackedFacts.apiresponse_body_tracked.
      intros k Hk. apply TrackedFacts.apply_change_input_eq.
      intros ->. apply Eb. rewrite Hdeps. apply list_elem_of_In. exact Hk.
  - apply coherent_empty; [exact Ea|].
    apply (coherent_no_frame_without_response s Hs Ea).
Qed.

Lemma apply_msg_coherent s m : coherent s -> coherent (apply_msg s m).
Proof.
  intros Hs. pose proof (set_input_coherent) as Hset.
  destruct m as [v lo hi|v lo hi]; cbn [apply_msg].
  - apply (coherent_ext (set_input (SetPlotTemp v) s)); try reflexivity; [|apply Hset, Hs].
    apply SessionFacts.apiresponse_body_fetch_determined. repeat split.
  - apply (coherent_ext (set_input (SetTableTemp v) s)); try reflexivity; [|apply Hset, Hs].
    apply SessionFacts.apiresponse_body_fetch_determined. repeat split.
Qed.

Lemma run_effect_coherent s : coherent s -> coherent (run_effect s).
Proof.
  intros Hs. unfold run_effect. rewrite SessionFacts.updateslider_body_run.
  cbn [fold_left]. apply apply_msg_coherent, apply_msg_coherent.
  apply (coherent_ext s); try reflexivity. exact Hs.
Qed.

(** What [apiresponse()] returns and leaves behind. *)
Lemma apiresponse_coherent s :
  coherent s ->
  fst (apiresponse weather_api df s) = fresh_response weather_api df (inputs s)
  /\ coherent (snd (apiresponse weather_api df s))
  /\ inputs (snd (apiresponse weather_api df s)) = inputs s
  /\ heap (snd (apiresponse weather_api df s)) = heap s
  /\ df_cache (snd (apiresponse weather_api df s)) = df_cache s
  /\ is_Some (api_cache (snd (apiresponse weather_api df s))).
Proof.
  intros Hs. unfold apiresponse.
  destruct (api_cache s) as [[deps v]|] eqn:Ea; cbn [fst snd].
  - destruct Hs as [H1 H2]. destruct (H1 deps v Ea) as [_ Hv].
    split; [exact Hv|]. split; [split; assumption|].
    repeat split. rewrite Ea. eexists. reflexivity.
  - pose proof (coherent_no_frame_without_response s Hs Ea) as Hd.
    unfold fresh_response.
    destruct (body (inputs s)) as [tr v] eqn:Eb. cbn [fst snd].
    split; [reflexivity|]. split.
    + split; cbn [api_cache df_cache inputs heap].
      * intros deps v' [= <- <-]. unfold fresh_response. rewrite Eb. split; reflexivity.
      * rewrite Hd. discriminate.
    + repeat split. eexists. reflexivity.
Qed.

(** What [filter_df()] returns and leaves behind. *)
Lemma filter_df_coherent s :
  coherent s ->
  coherent (snd (filter_df weather_api df s))
  /\ inputs (snd (filter_df weather_api df s)) = inputs s
  /\ df_cache (snd (filter_df weather_api df s)) = Some (fst (filter_df weather_api df s))
  /\ is_Some (api_cache (snd (filter_df weather_api df s))).
Proof.
  intros Hs. unfold filter_df.
  destruct (df_cache s) as [v|] eqn:Ed; cbn [fst snd].
  - split; [exact Hs|]. split; [reflexivity|]. split; [exact Ed|].
    destruct Hs as [_ H2]. apply (H2 v Ed).
  - destruct (apiresponse_coherent s Hs) as (Hr & Hs1 & Hi & Hh & Hd & Ha).
    destruct (apiresponse weather_api df s) as [r s1]. cbn [fst snd] in *.
    assert (fresh_frame weather_api df (inputs s1) = obind r filter_df_body) as Hf
      by (unfold fresh_frame; rewrite Hi, Hr; reflexivity).
    destruct Hs1 as [H1 _].
    destruct (obind r filter_df_body) as [frame|e]; cbn [fst snd inputs df_cache api_cache heap].
    + split; [|repeat split; assumption].
      split; cbn [api_cache df_cache inputs heap]; [exact H1|].
      intros v [= <-]. split; [exact Ha|].
      exists frame, frame. split; [exact Hf|]. split; [|apply same_data_refl].
      unfold Heap, loc. apply list_lookup_middle. reflexivity.
    + split; [|repeat split; assumption].
      split; cbn [api_cache df_cache inputs heap]; [exact H1|].
      intros v [= <-]. split; [exact Ha | exact Hf].
Qed.

(** The plot writes into the cached frame and keeps its data. *)
Lemma plot_coherent s :
  coherent s ->
  coherent (snd (plot weather_api df s))
  /\ inputs (snd (plot weather_api df s)) = inputs s.
Proof.
  intros Hs. unfold plot.
  destruct (filter_df_coherent s Hs) as (Hs1 & Hi & Hd & Ha).
  destruct (filter_df weather_api df s) as [[l|e] s1]; cbn [fst snd] in *;
    [|split; assumption].
  destruct Hs1 as [H1 H2].
  destruct (H2 _ Hd) as (_ & frame0 & frame & Hf & Hl & Hsame).
  assert (exists temps, num_col frame "temperature_2m_min" = Ok temps) as [temps Ht].
  { unfold fresh_frame in Hf.
    destruct (fresh_response weather_api df (inputs s1)) as [r|]; [|discriminate].
    cbn [obind] in Hf. apply filter_df_body_temps in Hf.
    destruct Hsame as (_ & _ & Htemp). unfold num_col. rewrite Htemp, Hf.
    eexists. reflexivity. }
  rewrite (PlotFacts.plot_body_run (inputs s1) l (heap s1) frame temps Hl Ht).
  cbn [fst snd inputs with_heap]. split; [|exact Hi].
  split; cbn [api_cache df_cache inputs heap with_heap]; [exact H1|].
  intros v Hv. rewrite Hd in Hv. injection Hv as <-. split; [exact Ha|].
  eexists frame0, _. split; [exact Hf|]. split.
  - unfold Heap, loc in *. apply list_lookup_insert_eq. eapply lookup_lt_Some; exact Hl.
  - apply same_data_setitem; [discriminate | discriminate|].
    apply same_data_setitem; [discriminate | discriminate | exact Hsame].
Qed.

Lemma render_coherent a s :
  SessionInv.is_render a ->
  coherent s ->
  coherent (perform weather_api float_str df a s)
  /\ inputs (perform weather_api float_str df a s) = inputs s
  /\ is_Some (api_cache (perform weather_api float_str df a s)).
Proof.
  intros Ha Hs. destruct a as [c| | | |]; [destruct Ha| | | |]; cbn [perform].
  - unfold text. destruct (apiresponse_coherent s Hs) as (_ & H1 & H2 & _ & _ & H3).
    destruct (apiresponse weather_api df s). cbn [fst snd] in *.
    split; [exact H1|]. split; [exact H2 | exact H3].
  - unfold map_widget. destruct (apiresponse_coherent s Hs) as (_ & H1 & H2 & _ & _ & H3).
    destruct (apiresponse weather_api df s). cbn [fst snd] in *.
    split; [exact H1|]. split; [exact H2 | exact H3].
  - unfold hist_table. destruct (filter_df_coherent s Hs) as (H1 & H2 & _ & H3).
    destruct (filter_df weather_api df s) as [[l|e] s1]; cbn [fst snd] in *;
      [|split; [exact H1|]; split; [exact H2 | exact H3]].
    destruct (heap s1 !! l); cbn [fst snd];
      (split; [exact H1|]; split; [exact H2 | exact H3]).
  - destruct (plot_coherent s Hs) as [H1 H2]. split; [exact H1|]. split; [exact H2|].
    unfold plot in *. destruct (filter_df_coherent s Hs) as (_ & _ & _ & H3).
    destruct (filter_df weather_api df s) as [[l|e] s1]; cbn [fst snd] in *; [|exact H3].
    destruct (plot_body (inputs s1) l (heap s1)). exact H3.
Qed.

Lemma perform_coherent a s :
  coherent s -> coherent (perform weather_api float_str df a s).
Proof.
  intros Hs. destruct a as [c| | | |];
    try (apply render_coherent; [exact I | exact Hs]).
  cbn [perform]. unfold on_change. destruct (_ && _).
  - apply run_effect_coherent, set_input_coherent, Hs.
  - apply set_input_coherent, Hs.
Qed.

(** In every session the program reaches the cached values are coherent. *)
Lemma reachable_coherent i0 s :
  reachable weather_api float_str df i0 s -> coherent s.
Proof.
  induction 1 as [|s a _ IH]; [|apply perform_coherent, IH].
  apply run_effect_coherent, coherent_empty; reflexivity.
Qed.

End Server.

End CoherenceFacts.





(** X10.  A response is fetched once.  In every session the program
    reaches, a render sends at most one request, and a render that
    follows a render, with no input changed in between, sends none. *)
Theorem render_after_render_sends_nothing
        (weather_api : Params -> outcome (list Response))
        (float_str : Q -> string) (df : list Catalog.CityRow)
        (i0 : Inputs) (s : Session) (a b : action) :
  reachable weather_api float_str df i0 s ->
  is_render a -> is_render b ->
  (length (fetches (perform weather_api float_str df a s)) <= length (fetches s) + 1)%nat
  /\ fetches (perform weather_api float_str df b (perform weather_api float_str df a s))
     = fetches (perform weather_api float_str df a s).
Proof.
  intros Hreach Ha Hb.
  pose proof (CoherenceFacts.reachable_coherent _ _ _ _ _ Hreach) as Hs.
  split.
  - destruct (api_cache s) as [c|] eqn:Ec.
    + rewrite SessionFacts.render_cached_no_fetch; [lia | exact Ha | rewrite Ec; eexists; reflexivity].
    + pose proof (CoherenceFacts.coherent_no_frame_without_response _ _ s Hs Ec) as Hd.
      pose proof (TrackedFacts.requests_at_most_one weather_api df (inputs s)) as Hone.
      assert (fetches (snd (apiresponse weather_api df s))
              = fetches s ++ requests (fst (apiresponse_body weather_api df (inputs s)))) as Hapi.
      { unfold apiresponse. rewrite Ec.
        destruct (apiresponse_body weather_api df (inputs s)). reflexivity. }
      assert (fetches (snd (filter_df weather_api df s))
              = fetches (snd (apiresponse weather_api df s))) as Hfd.
      { unfold filter_df. rewrite Hd.
        destruct (apiresponse weather_api df s) as [r s1].
        destruct (obind r filter_df_body); reflexivity. }
      assert (fetches (perform weather_api float_str df a s)
              = fetches (snd (apiresponse weather_api df s))) as ->.
      { destruct a as [c| | | |]; [destruct Ha| | | |]; cbn [perform].
        - unfold text. destruct (apiresponse weather_api df s). reflexivity.
        - unfold map_widget. destruct (apiresponse weather_api df s). reflexivity.
        - unfold hist_table. rewrite <- Hfd.
          destruct (filter_df weather_api df s) as [[l|e] s1]; cbn [fst snd]; [|reflexivity].
          destruct (heap s1 !! l); reflexivity.
        - unfold plot. rewrite <- Hfd.
          destruct (filter_df weather_api df s) as [[l|e] s1]; cbn [fst snd]; [|reflexivity].
          destruct (plot_body (inputs s1) l (heap s1)). reflexivity. }
      rewrite Hapi, length_app. lia.
  - apply SessionFacts.render_cached_no_fetch; [exact Hb|].
    apply (CoherenceFacts.render_coherent weather_api float_str df a s Ha Hs).
Qed.

Lemma render_after_render_sends_nothing_witness :
  length (fetches (perform Demo.weather_api Demo.float_str Demo.df RenderMap
                     (perform Demo.weather_api Demo.float_str Demo.df RenderText
                        (start Demo.inputs0)))) = 1%nat.
Proof.
  destruct (render_after_render_sends_nothing
              Demo.weather_api Demo.float_str Demo.df Demo.inputs0 (start Demo.inputs0)
              RenderText RenderMap (reach_start _ _ _ _) I I) as [_ ->].
  reflexivity.
Defined.

Module FreshPlot.
Import Coherence.


End FreshPlot.



Module CityListFacts.

Lemma existsb_eqb_In x seen : existsb (String.eqb x) seen = true <-> In x seen.
Proof.
  rewrite existsb_exists. split.
  - intros (y & Hy & E). apply String.eqb_eq in E. subst y. exact Hy.
  - intros H. exists x. split; [exact H | apply String.eqb_refl].
Qed.

Lemma unique_from_In x seen l :
  In x (unique_from seen l) <-> In x l /\ ~ In x seen.
Proof.
  revert seen. induction l as [|y l IH]; intros seen; simpl.
  - tauto.
  - destruct (existsb (String.eqb y) seen) eqn:E.
    + apply existsb_eqb_In in E. rewrite IH. split.
      * intros [H1 H2]. tauto.
      * intros [[->|H1] H2]; [contradiction | tauto].
    + assert (~ In y seen) as Hy
        by (intros H; apply existsb_eqb_In in H; congruence).
      simpl. rewrite IH. simpl. split.
      * intros [->|[H1 H2]]; [tauto|]. split; [tauto|]. intros H. apply H2. right. exact H.
      * intros [[->|H1] H2]; [tauto|].
        destruct (String.eqb_spec y x) as [->|Hne]; [tauto|]. right. split; [exact H1|].
        intros [H|H]; [congruence | contradiction].
Qed.

Lemma unique_from_NoDup seen l : List.NoDup (unique_from seen l).
Proof.
  revert seen. induction l as [|y l IH]; intros seen; simpl; [constructor|].
  destruct (existsb (String.eqb y) seen); [apply IH|].
  constructor; [|apply IH].
  rewrite unique_from_In. intros [_ H]. apply H. left. reflexivity.
Qed.

(** The first row of a catalog that carries a label it has. *)
Lemma first_row_of label (df : list Catalog.CityRow) :
  (exists r, In r df /\ Catalog.city_state r = label) ->
  exists pre row post,
    df = pre ++ row :: post
    /\ Catalog.city_state row = label
    /\ (forall r, In r pre -> Catalog.city_state r <> label).
Proof.
  induction df as [|x df IH]; intros (r & Hin & Hr); [destruct Hin|].
  destruct (String.eqb_spec (Catalog.city_state x) label) as [Hx|Hx].
  - exists [], x, df. split; [reflexivity|]. split; [exact Hx|]. intros y [].
  - destruct Hin as [->|Hin]; [contradiction|].
    destruct (IH (ex_intro _ r (conj Hin Hr))) as (pre & row & post & -> & Hrow & Hpre).
    exists (x :: pre), row, post. split; [reflexivity|]. split; [exact Hrow|].
    intros y [<-|Hy]; [exact Hx | apply Hpre, Hy].
Qed.

End CityListFacts.

(** X13.  The two scripts together.  The dashboard starts on the catalog
    that the preprocessing writes exactly when the raw table has a row of
    at least 10000 inhabitants whose city and state make the label
    "Urbana, Illinois"; on any other raw table, Urbana too small or
    missing, its import fails with [IndexError]. *)
Theorem dashboard_starts_iff_urbana_is_populous (raw : list ProcessData.RawRow) :
  ((exists g, load_module (Catalog.rows (ProcessData.process raw)) = Ok g)
   <-> exists r, In r raw /\ 10000 <= ProcessData.population r
                 /\ (ProcessData.city r ++ ", " ++ ProcessData.state_name r)%string
                    = "Urbana, Illinois"%string)
  /\ ((forall r, In r raw -> 10000 <= ProcessData.population r ->
                 (ProcessData.city r ++ ", " ++ ProcessData.state_name r)%string
                 <> "Urbana, Illinois"%string) ->
      load_module (Catalog.rows (ProcessData.process raw)) = Raise "IndexError").
Proof.
  split.
  - unfold load_module.
    transitivity (exists v, lookup_first Catalog.lat "Urbana, Illinois"
                                         (Catalog.rows (ProcessData.process raw)) = Ok v).
    + destruct (lookup_first _ _ _) as [v|e]; simpl.
      * split; intros _; eexists; reflexivity.
      * split; intros [x Hx]; discriminate.
    + rewrite CatalogFacts.lookup_first_ok_iff. split.
      * intros (row & Hin & Hl). apply ProcessFacts.process_rows_In in Hin as (r & Hr & Hp & ->).
        exists r. repeat split; assumption.
      * intros (r & Hr & Hp & Hl). exists (ProcessData.select r). split; [|exact Hl].
        apply ProcessFacts.process_rows_In. exists r. repeat split; assumption.
  - intros Hnone. unfold load_module.
    rewrite CatalogFacts.lookup_first_missing; [reflexivity|].
    intros row Hin. apply ProcessFacts.process_rows_In in Hin as (r & Hr & Hp & ->).
    apply (Hnone r Hr Hp).
Qed.

Lemma dashboard_starts_iff_urbana_is_populous_witness :
  (exists g, load_module (Catalog.rows (ProcessData.process Demo.raw)) = Ok g)
  /\ load_module (Catalog.rows (ProcessData.process (List.tl Demo.raw))) = Raise "IndexError".
Proof.
  split.
  - apply (proj1 (dashboard_starts_iff_urbana_is_populous Demo.raw)).
    exists (List.hd (ProcessData.Build_RawRow "" "" 0 0 0) Demo.raw).
    split; [left; reflexivity|]. split; [vm_compute; discriminate | reflexivity].
  - apply (proj2 (dashboard_starts_iff_urbana_is_populous (List.tl Demo.raw))).
    intros r [<-|[<-|[]]] Hp; [vm_compute in Hp; contradiction | discriminate].
Defined.

(** X14.  The city selector.  When the module loads, the list of cities
    offered has no repetition and holds exactly the labels of the catalog;
    and a run of [apiresponse] for a listed city (other than the empty
    label) finds its coordinates: it sends its one request, for the first
    catalog row of that city, and ends as the answer of the archive makes
    it end, with the first response, with [IndexError] on an answer
    without responses, or with the error of the archive. *)
Theorem listed_cities_are_distinct_and_resolve
        (weather_api : Params -> outcome (list Response))
        (df : list Catalog.CityRow) (g : Globals) :
  load_module df = Ok g ->
  List.NoDup (g_cities g)
  /\ (forall c, In c (g_cities g) <-> exists r, In r df /\ Catalog.city_state r = c)
  /\ (forall inp,
         In (city inp) (g_cities g) ->
         city inp <> ""%string ->
         exists pre row post,
           df = pre ++ row :: post
           /\ Catalog.city_state row = city inp
           /\ (forall r, In r pre -> Catalog.city_state r <> city inp)
           /\ requests (fst (apiresponse_body weather_api df inp))
              = [ {| latitude := Catalog.lat row;
                     longitude := Catalog.lng row;
                     start_date := fst (daterange inp);
                     end_date := snd (daterange inp);
                     daily := "temperature_2m_min";
                     temperature_unit := tempunits inp |} ]
           /\ snd (apiresponse_body weather_api df inp)
              = obind (weather_api
                         {| latitude := Catalog.lat row;
                            longitude := Catalog.lng row;
                            start_date := fst (daterange inp);
                            end_date := snd (daterange inp);
                            daily := "temperature_2m_min";
                            temperature_unit := tempunits inp |}) item0).
Proof.
  unfold load_module.
  destruct (lookup_first Catalog.lat "Urbana, Illinois" df) as [v|e]; [|discriminate].
  intros [= <-]. cbn [g_cities].
  assert (forall c, In c (unique_from [] (map Catalog.city_state df))
                    <-> exists r, In r df /\ Catalog.city_state r = c) as Hlist.
  { intros c. rewrite CityListFacts.unique_from_In, in_map_iff. simpl. split.
    - intros [(r & Hr & Hin) _]. exists r. split; assumption.
    - intros (r & Hin & Hr). split; [exists r; split; assumption | tauto]. }
  split; [apply CityListFacts.unique_from_NoDup|]. split; [exact Hlist|].
  intros inp Hc Hne. apply Hlist in Hc.
  destruct (CityListFacts.first_row_of _ _ Hc) as (pre & row & post & Hdf & Hrow & Hpre).
  exists pre, row, post. split; [exact Hdf|]. split; [exact Hrow|]. split; [exact Hpre|].
  apply String.eqb_neq in Hne.
  unfold apiresponse_body, rbind, input_daterange, input_city, input_tempunits,
    req, lift, ret, call_weather_api.
  rewrite Hne, Hdf. rewrite !(CatalogFacts.lookup_first_found _ _ _ _ _ Hrow Hpre).
  match goal with |- context [weather_api ?p] => destruct (weather_api p) as [rs|err] end;
    split; reflexivity.
Qed.

Lemma listed_cities_are_distinct_and_resolve_witness :
  exists g, load_module (Demo.df ++ Demo.df) = Ok g
            /\ g_cities g = ["Urbana, Illinois"; "Chicago, Illinois"]%string
            /\ List.NoDup (g_cities g).
Proof.
  eexists. split; [reflexivity|]. split; [reflexivity|].
  exact (proj1 (listed_cities_are_distinct_and_resolve
                  Demo.weather_api (Demo.df ++ Demo.df) _ eq_refl)).
Defined.

Module ShapeFacts.
Import FrameShape.

Lemma set_col_Forall (P : string * column -> Prop) name c cs :
  Forall P cs -> P (name, c) -> Forall P (set_col name c cs).
Proof.
  intros Hcs Hc. induction Hcs as [|[n c0] cs Hn Hcs IH]; simpl.
  - constructor; [exact Hc | constructor].
  - destruct (String.eqb n name); constructor; assumption.
Qed.

Lemma get_col_Forall (Q : column -> Prop) name c cs :
  Forall (fun nc => Q (snd nc)) cs -> get_col name cs = Some c -> Q c.
Proof.
  induction 1 as [|[n c0] cs Hn Hcs IH]; simpl; [discriminate|].
  destruct (String.eqb n name); [intros [= <-]; exact Hn | exact IH].
Qed.

Lemma rectangular_getitem frame name c :
  rectangular frame -> getitem frame name = Ok c -> column_len c = nrows frame.
Proof.
  intros Hf. unfold getitem.
  destruct (get_col name (cols frame)) as [c'|] eqn:E; [|discriminate].
  intros [= <-].
  exact (get_col_Forall (fun c0 => column_len c0 = nrows frame) _ _ _ Hf E).
Qed.

Lemma rectangular_setitem frame name c :
  rectangular frame -> column_len c = nrows frame -> rectangular (setitem frame name c).
Proof. intros Hf Hc. apply set_col_Forall; assumption. Qed.

Lemma filter_df_body_rectangular response frame :
  filter_df_body response = Ok frame -> rectangular frame.
Proof.
  unfold filter_df_body, frame_of_dict.
  destruct (Nat.eqb _ _) eqn:E; [|discriminate]. apply Nat.eqb_eq in E.
  intros [= <-]. unfold rectangular. simpl. repeat constructor. simpl. symmetry. exact E.
Qed.

Lemma assign_rolling_rectangular name win (l : loc) (h h' : Heap) :
  Forall rectangular h -> assign_rolling name win l h = Ok h' -> Forall rectangular h'.
Proof.
  intros Hh. unfold assign_rolling.
  destruct (h !! l) as [frame|] eqn:El; [|discriminate].
  assert (rectangular frame) as Hf by (eapply Forall_lookup_1; eassumption).
  unfold num_col.
  destruct (getitem frame "temperature_2m_min") as [[v|v]|] eqn:Eg; cbn [obind];
    try discriminate.
  intros [= <-]. unfold Heap, loc in *. apply Forall_insert; [exact Hh|].
  apply rectangular_setitem; [exact Hf|]. simpl.
  rewrite RollingFacts.rolling_mean_length.
  exact (rectangular_getitem frame _ _ Hf Eg).
Qed.

Lemma plot_body_rectangular inp (l : loc) (h : Heap) :
  Forall rectangular h -> Forall rectangular (snd (plot_body inp l h)).
Proof.
  intros Hh. unfold plot_body.
  destruct (assign_rolling "weekrollingavg" 7 l h) as [h1|] eqn:E1; [|exact Hh].
  pose proof (assign_rolling_rectangular _ _ _ _ _ Hh E1) as Hh1.
  destruct (assign_rolling "monthrollingavg" 30 l h1) as [h2|] eqn:E2; [|exact Hh1].
  pose proof (assign_rolling_rectangular _ _ _ _ _ Hh1 E2) as Hh2.
  destruct (h2 !! l); exact Hh2.
Qed.

Lemma heap_set_input c s : heap (set_input c s) = heap s.
Proof.
  unfold set_input. destruct (same_value c (inputs s)); [reflexivity|].
  unfold invalidate. simpl. destruct (api_cache s) as [[deps v]|]; [|reflexivity].
  destruct (bool_decide (changed_id c ∈ deps)); reflexivity.
Qed.

Lemma heap_apply_msg s m : heap (apply_msg s m) = heap s.
Proof. destruct m; simpl; apply heap_set_input. Qed.

Lemma heap_run_effect s : heap (run_effect s) = heap s.
Proof.
  unfold run_effect. rewrite SessionFacts.updateslider_body_run. cbn [fold_left].
  rewrite !heap_apply_msg. reflexivity.
Qed.

Lemma heap_on_change c s : heap (on_change c s) = heap s.
Proof.
  unfold on_change. destruct (_ && _); [rewrite heap_run_effect|]; apply heap_set_input.
Qed.

Section Server.
Variable weather_api : Params -> outcome (list Response).
Variable float_str : Q -> string.
Variable df : list Catalog.CityRow.

Lemma heap_apiresponse s : heap (snd (apiresponse weather_api df s)) = heap s.
Proof.
  unfold apiresponse. destruct (api_cache s) as [[deps v]|]; [reflexivity|].
  destruct (apiresponse_body weather_api df (inputs s)). reflexivity.
Qed.

Lemma filter_df_rectangular s :
  Forall rectangular (heap s) ->
  Forall rectangular (heap (snd (filter_df weather_api df s))).
Proof.
  intros Hh. unfold filter_df. destruct (df_cache s); [exact Hh|].
  pose proof (heap_apiresponse s) as Hheap.
  destruct (apiresponse weather_api df s) as [[r|e] s1]; cbn [fst snd obind] in *.
  - destruct (filter_df_body r) as [frame|e] eqn:Ef; cbn [snd heap].
    + apply Forall_app. split; [rewrite Hheap; exact Hh|].
      constructor; [|constructor]. eapply filter_df_body_rectangular, Ef.
    + rewrite Hheap. exact Hh.
  - rewrite Hheap. exact Hh.
Qed.

Lemma perform_rectangular a s :
  Forall rectangular (heap s) ->
  Forall rectangular (heap (perform weather_api float_str df a s)).
Proof.
  intros Hh. destruct a as [c| | | |]; cbn [perform].
  - rewrite heap_on_change. exact Hh.
  - unfold text. pose proof (heap_apiresponse s) as H.
    destruct (apiresponse weather_api df s). cbn [snd] in *. rewrite H. exact Hh.
  - unfold map_widget. pose proof (heap_apiresponse s) as H.
    destruct (apiresponse weather_api df s). cbn [snd] in *. rewrite H. exact Hh.
  - unfold hist_table. pose proof (filter_df_rectangular s Hh) as H.
    destruct (filter_df weather_api df s) as [[l|e] s1]; cbn [snd] in *; [|exact H].
    destruct (heap s1 !! l); exact H.
  - unfold plot. pose proof (filter_df_rectangular s Hh) as H.
    destruct (filter_df weather_api df s) as [[l|e] s1]; cbn [snd] in *; [|exact H].
    pose proof (plot_body_rectangular (inputs s1) l (heap s1) H) as Hp.
    destruct (plot_body (inputs s1) l (heap s1)). exact Hp.
Qed.

End Server.

End ShapeFacts.

(** X15.  The frames stay rectangular.  In every session the program
    reaches, every column of every frame built by [filter_df], the
    rolling-average columns that the plot adds included, has exactly one
    entry per row of the frame. *)
Theorem frames_stay_rectangular
        (weather_api : Params -> outcome (list Response))
        (float_str : Q -> string) (df : list Catalog.CityRow)
        (i0 : Inputs) (s : Session) (l : loc) (frame : DataFrame)
        (name : string) (c : column) :
  reachable weather_api float_str df i0 s ->
  heap s !! l = Some frame ->
  getitem frame name = Ok c ->
  column_len c = nrows frame.
Proof.
  intros Hreach Hl Hc.
  assert (Forall FrameShape.rectangular (heap s)) as Hh.
  { clear Hl. induction Hreach as [|s a _ IH].
    - unfold start. rewrite ShapeFacts.heap_run_effect. constructor.
    - apply ShapeFacts.perform_rectangular, IH. }
  apply (ShapeFacts.rectangular_getitem frame name c); [|exact Hc].
  eapply Forall_lookup_1; eassumption.
Qed.

Lemma frames_stay_rectangular_witness :
  exists frame c,
    heap (perform Demo.weather_api Demo.float_str Demo.df RenderPlot
                  Demo.session_with_table) !! 0%nat = Some frame
    /\ getitem frame "monthrollingavg" = Ok c
    /\ column_len c = nrows frame.
Proof.
  eexists _, _. split; [reflexivity|]. split; [reflexivity|].
  apply (frames_stay_rectangular Demo.weather_api Demo.float_str Demo.df Demo.inputs0
           (perform Demo.weather_api Demo.float_str Demo.df RenderPlot Demo.session_with_table)
           0%nat _ "monthrollingavg" _); [|reflexivity | reflexivity].
  apply reach_step, reach_step, reach_start.
Defined.

Module InvalidationFacts.

(** Every run of [apiresponse] reads the date range and the city, however
    it ends. *)
Lemma apiresponse_body_reads_city_and_dates weather_api df i :
  In IdCity (reads (fst (apiresponse_body weather_api df i)))
  /\ In IdDaterange (reads (fst (apiresponse_body weather_api df i))).
Proof.
  unfold apiresponse_body, rbind, input_daterange, input_city, input_tempunits,
    req, lift, ret, call_weather_api.
  destruct (String.eqb (city i) ""); simpl; [tauto|].
  destruct (lookup_first Catalog.lat (city i) df); simpl; [|tauto].
  destruct (lookup_first Catalog.lng (city i) df); simpl; [|tauto].
  match goal with |- context [weather_api ?p] => destruct (weather_api p) end; simpl; tauto.
Qed.

End InvalidationFacts.

(** X16.  The display inputs cost nothing.  In every session the program
    reaches, changing the plot options or the table range sends no
    request, keeps the cached response and the cached frame, and leaves
    the heap and the fetch inputs as they were. *)
Theorem display_inputs_keep_the_caches
        (weather_api : Params -> outcome (list Response))
        (float_str : Q -> string) (df : list Catalog.CityRow)
        (i0 : Inputs) (s : Session) (c : change) :
  reachable weather_api float_str df i0 s ->
  changed_id c = IdPlotOptions \/ changed_id c = IdTableTemp ->
  let s' := perform weather_api float_str df (Change c) s in
  fetches s' = fetches s
  /\ api_cache s' = api_cache s
  /\ df_cache s' = df_cache s
  /\ heap s' = heap s
  /\ same_fetch_inputs (inputs s') (inputs s).
Proof.
  intros Hreach Hc s'. subst s'. cbn [perform].
  pose proof (SessionFacts.reachable_ok _ _ _ _ _ Hreach) as [Ha He].
  unfold on_change. rewrite He.
  assert (bool_decide (changed_id c ∈ replicate 6 IdTempunits) = false) as ->
    by (destruct Hc as [-> | ->]; reflexivity).
  rewrite andb_false_r. unfold set_input.
  destruct (same_value c (inputs s)); [repeat split|].
  unfold invalidate. cbn [api_cache with_inputs].
  destruct (api_cache s) as [[deps v]|] eqn:Ea.
  - destruct (bool_decide (changed_id c ∈ deps)) eqn:Eb.
    + exfalso. apply bool_decide_eq_true in Eb.
      specialize (Ha deps v eq_refl). rewrite Forall_forall in Ha.
      destruct (Ha _ Eb) as [H|[H|H]]; destruct Hc as [Hc|Hc]; congruence.
    + cbn [fetches api_cache df_cache heap inputs with_inputs].
      destruct c; destruct Hc as [Hc|Hc]; try discriminate;
        repeat split; try exact Ea.
  - cbn [fetches api_cache df_cache heap inputs with_inputs].
    destruct c; destruct Hc as [Hc|Hc]; try discriminate;
      repeat split; try exact Ea.
Qed.

Lemma display_inputs_keep_the_caches_witness :
  let s' := perform Demo.weather_api Demo.float_str Demo.df
              (Change (SetPlotOptions ["weekly"%string])) Demo.session_with_table in
  fetches s' = fetches Demo.session_with_table
  /\ df_cache s' = Some (Ok 0%nat).
Proof.
  assert (reachable Demo.weather_api Demo.float_str Demo.df Demo.inputs0
                    Demo.session_with_table) as Hreach
    by (apply reach_step, reach_start).
  destruct (display_inputs_keep_the_caches
              Demo.weather_api Demo.float_str Demo.df Demo.inputs0 Demo.session_with_table
              (SetPlotOptions ["weekly"%string]) Hreach (or_introl eq_refl))
    as (Hf & _ & Hd & _).
  split; [exact Hf | rewrite Hd; reflexivity].
Defined.

(** X17.  A new city or a new date range discards what was fetched.  In
    every session the program reaches, setting the city or the date range
    to a value it did not have leaves neither a cached response nor a
    cached frame, so that the next render runs [apiresponse] again. *)
Theorem new_city_or_dates_discard_the_caches
        (weather_api : Params -> outcome (list Response))
        (float_str : Q -> string) (df : list Catalog.CityRow)
        (i0 : Inputs) (s : Session) (c : change) :
  reachable weather_api float_str df i0 s ->
  changed_id c = IdCity \/ changed_id c = IdDaterange ->
  same_value c (inputs s) = false ->
  api_cache (perform weather_api float_str df (Change c) s) = None
  /\ df_cache (perform weather_api float_str df (Change c) s) = None.
Proof.
  intros Hreach Hc Hnew. cbn [perform].
  pose proof (SessionFacts.reachable_ok _ _ _ _ _ Hreach) as [_ He].
  pose proof (CoherenceFacts.reachable_coherent _ _ _ _ _ Hreach) as Hs.
  unfold on_change. rewrite He.
  assert (bool_decide (changed_id c ∈ replicate 6 IdTempunits) = false) as ->
    by (destruct Hc as [-> | ->]; reflexivity).
  rewrite andb_false_r. unfold set_input. rewrite Hnew.
  unfold invalidate. cbn [api_cache with_inputs].
  destruct (api_cache s) as [[deps v]|] eqn:Ea.
  - destruct Hs as [H1 _]. destruct (H1 deps v Ea) as [Hdeps _].
    destruct (InvalidationFacts.apiresponse_body_reads_city_and_dates
                weather_api df (inputs s)) as [Hcity Hdates].
    rewrite <- Hdeps in Hcity, Hdates.
    rewrite bool_decide_eq_true_2; [split; reflexivity|].
    apply list_elem_of_In. destruct Hc as [-> | ->]; assumption.
  - cbn [api_cache df_cache]. split; [exact Ea|].
    apply (CoherenceFacts.coherent_no_frame_without_response _ _ s Hs Ea).
Qed.

Lemma new_city_or_dates_discard_the_caches_witness :
  api_cache (perform Demo.weather_api Demo.float_str Demo.df
               (Change (SetCity "Chicago, Illinois")) Demo.session_with_table) = None
  /\ is_Some (api_cache Demo.session_with_table).
Proof.
  split; [|eexists; reflexivity].
  apply (new_city_or_dates_discard_the_caches
           Demo.weather_api Demo.float_str Demo.df Demo.inputs0 Demo.session_with_table
           (SetCity "Chicago, Illinois")); [|left; reflexivity | reflexivity].
  apply reach_step, reach_start.
Defined.
